(** * tenpy_notebooks: the notebooks and their CI workflow

    The repository holds Jupyter notebooks that drive the TeNPy library and
    one GitHub Actions workflow that runs them.  This development embeds

    - the code cells of the notebooks as Python statements ([Py]), with the
      captured [execute_result] text of each cell ([Notebooks]);
    - the workflow file as a record, with the trigger, job-condition and
      pytest collection rules it relies on ([CI]);
    - the execution of a notebook against an arbitrary Python runtime, as a
      state-and-error monad that logs every runtime operation ([Sem]).

    TeNPy, numpy and the Python runtime are not part of the repository: the
    semantics takes them as a parameter ([runtime]) and never looks inside. *)

From Stdlib Require Import String Ascii List ZArith Bool.
Import ListNotations.
#[local] Set Warnings "-register-all".
Open Scope string_scope.

(* ================================================================== *)
(** ** Python syntax of the code cells *)

Module Py.

Inductive binop := Add | Sub | Mult.

(** Expressions.  Only the forms that occur in the notebooks. *)
Inductive expr :=
| EName (x : string)
| ENum (n : Z)
| EFloat (literal : string)
| EStr (s : string)
| EBool (b : bool)
| EAttr (e : expr) (a : string)
| ECall (f : expr) (args : list expr) (kwargs : list (string * expr))
| EDict (items : list (expr * expr))
| EList (items : list expr)
| ESubscript (e : expr) (i : expr)
| EBinOp (op : binop) (l r : expr).

(** Assignment targets: [x = ...], [x, y = ...], [o[i] = ...]. *)
Inductive target :=
| TName (x : string)
| TPair (x y : string)
| TSubscript (o : expr) (i : expr).

(** Statements.  The first four forms are the ones the notebooks use; the
    others are the Python constructs with which a notebook would define an
    algorithm ([SDef], [SFor], [SWhile], [SIf], [SWith]), a data structure
    ([SClass]) or failure handling ([STry], [SRaise], [SAssert]). *)
Inductive stmt :=
| SImport (module : string) (alias : option string)
| SFromImport (module : string) (name : string)
| SAssign (t : target) (e : expr)
| SExpr (e : expr)
| SDef (name : string) (params : list string) (body : list stmt)
| SClass (name : string) (body : list stmt)
| SFor (t : target) (iter : expr) (body : list stmt)
| SWhile (cond : expr) (body : list stmt)
| SIf (cond : expr) (thn els : list stmt)
| SWith (ctx : expr) (body : list stmt)
| STry (body : list stmt) (handler : list stmt)
| SRaise (e : expr)
| SAssert (e : expr).

(** [o.m(args)] *)
Definition method (o : expr) (m : string) (args : list expr) : expr :=
  ECall (EAttr o m) args [].

(** [f(args)] *)
Definition call (f : expr) (args : list expr) : expr := ECall f args [].

(** Induction on expressions, through argument and item lists. *)

Section ExprInduction.

Variable P : expr -> Prop.

Hypothesis HName : forall x, P (EName x).
Hypothesis HNum : forall n, P (ENum n).
Hypothesis HFloat : forall t, P (EFloat t).
Hypothesis HStr : forall s, P (EStr s).
Hypothesis HBool : forall b, P (EBool b).
Hypothesis HAttr : forall e a, P e -> P (EAttr e a).
Hypothesis HCall : forall f args kwargs,
    P f -> Forall P args -> Forall (fun ka => P (snd ka)) kwargs ->
    P (ECall f args kwargs).
Hypothesis HDict : forall items,
    Forall (fun kv => P (fst kv) /\ P (snd kv)) items -> P (EDict items).
Hypothesis HList : forall items, Forall P items -> P (EList items).
Hypothesis HSubscript : forall e i, P e -> P i -> P (ESubscript e i).
Hypothesis HBinOp : forall b l r, P l -> P r -> P (EBinOp b l r).

Fixpoint expr_nested_ind (e : expr) : P e :=
  match e with
  | EName x => HName x
  | ENum n => HNum n
  | EFloat t => HFloat t
  | EStr s => HStr s
  | EBool b => HBool b
  | EAttr e a => HAttr e a (expr_nested_ind e)
  | ECall f args kwargs =>
      HCall f args kwargs (expr_nested_ind f)
        ((fix go (l : list expr) : Forall P l :=
            match l with
            | [] => Forall_nil _
            | a :: l' => Forall_cons _ (expr_nested_ind a) (go l')
            end) args)
        ((fix go (l : list (string * expr))
            : Forall (fun ka => P (snd ka)) l :=
            match l with
            | [] => Forall_nil _
            | (k, a) :: l' =>
                Forall_cons (P := fun ka => P (snd ka)) (k, a)
                  (expr_nested_ind a) (go l')
            end) kwargs)
  | EDict items =>
      HDict items
        ((fix go (l : list (expr * expr))
            : Forall (fun kv => P (fst kv) /\ P (snd kv)) l :=
            match l with
            | [] => Forall_nil _
            | (k, v) :: l' =>
                Forall_cons (P := fun kv => P (fst kv) /\ P (snd kv)) (k, v)
                  (conj (expr_nested_ind k) (expr_nested_ind v)) (go l')
            end) items)
  | EList items =>
      HList items
        ((fix go (l : list expr) : Forall P l :=
            match l with
            | [] => Forall_nil _
            | a :: l' => Forall_cons _ (expr_nested_ind a) (go l')
            end) items)
  | ESubscript e i => HSubscript e i (expr_nested_ind e) (expr_nested_ind i)
  | EBinOp b l r => HBinOp b l r (expr_nested_ind l) (expr_nested_ind r)
  end.

End ExprInduction.
End Py.
Import Py.

(* ================================================================== *)
(** ** The notebooks *)

Module Notebooks.

(** A code cell: its execution count, its source, and the [text/plain] of
    its [execute_result] output, line by line (empty when the cell displays
    nothing).  Stream outputs (the library's log lines) are not kept. *)
Record code_cell := {
  execution_count : option nat;
  source : list stmt;
  result : list string
}.

Inductive cell :=
| Markdown (first_line : string)
| Code (c : code_cell).

Definition notebook := list cell.

Definition code (n : option nat) (src : list stmt) (res : list string) : cell :=
  Code {| execution_count := n; source := src; result := res |}.

(** The cell shared by both notebooks:
<<
import numpy as np
import scipy
import matplotlib.pyplot as plt
np.set_printoptions(precision=5, suppress=True, linewidth=100)
plt.rcParams['figure.dpi'] = 150
>> *)
Definition numpy_setup : list stmt :=
  [ SImport "numpy" (Some "np");
    SImport "scipy" None;
    SImport "matplotlib.pyplot" (Some "plt");
    SExpr (ECall (EAttr (EName "np") "set_printoptions") []
             [("precision", ENum 5); ("suppress", EBool true);
              ("linewidth", ENum 100)]);
    SAssign (TSubscript (EAttr (EName "plt") "rcParams") (EStr "figure.dpi"))
            (ENum 150) ].

(** [tenpy.tools.misc.setup_logging(to_stdout="INFO")] *)
Definition setup_logging : stmt :=
  SExpr (ECall (EAttr (EAttr (EAttr (EName "tenpy") "tools") "misc")
                      "setup_logging")
               [] [("to_stdout", EStr "INFO")]).

(** *** _template.ipynb *)
Definition template_notebook : notebook :=
  [ Markdown "# Template";
    Markdown "Please follow these guidelines:";
    code (Some 4) numpy_setup [];
    code (Some 2)
      [ SImport "tenpy" None;
        SImport "tenpy.linalg.np_conserved" (Some "npc");
        SFromImport "tenpy.algorithms" "tebd";
        SFromImport "tenpy.networks.mps" "MPS";
        setup_logging ] [];
    code (Some 3)
      [ SExpr (method (EName "tenpy") "show_config" []) ] [];
    code None [] [] ].

(** *** The segment notebook
    ("Excitations with DMRG and segment boundary conditions") *)

(** Cell 4. *)
Definition model_params : expr :=
  EDict [ (EStr "J", EFloat "1.");
          (EStr "g", EFloat "1.5");
          (EStr "L", ENum 2);
          (EStr "bc_MPS", EStr "infinite");
          (EStr "conserve", EStr "best") ].

Definition cell_4 : list stmt :=
  [ SAssign (TName "model_params") model_params;
    SAssign (TName "M_i") (call (EName "TFIChain") [EName "model_params"]) ].

(** Cell 5: first DMRG run, on the infinite lattice. *)
Definition dmrg_params : expr :=
  EDict [ (EStr "mixer", EBool true);
          (EStr "max_E_err", EFloat "1.e-10");
          (EStr "trunc_params",
             EDict [ (EStr "chi_max", ENum 100);
                     (EStr "svd_min", EFloat "1.e-10") ]) ].

Definition TwoSiteDMRGEngine : expr := EAttr (EName "dmrg") "TwoSiteDMRGEngine".

Definition cell_5 : list stmt :=
  [ SAssign (TName "psi0_i")
      (method (EName "MPS") "from_lat_product_state"
         [EAttr (EName "M_i") "lat"; EList [EList [EStr "up"]]]);
    SAssign (TName "dmrg_params") dmrg_params;
    SAssign (TName "eng0_i")
      (call TwoSiteDMRGEngine
         [EName "psi0_i"; EName "M_i"; EName "dmrg_params"]);
    SAssign (TPair "E0_i" "_") (method (EName "eng0_i") "run" []);
    SAssign (TName "resume_psi0_i")
      (ECall (EAttr (EName "eng0_i") "get_resume_data") []
         [("sequential_simulations", EBool true)]) ].

(** Cell 8: cut the segment out of the infinite system. *)
Definition cell_8 : list stmt :=
  [ SAssign (TName "enlarge") (ENum 10);
    SAssign (TName "M_s")
      (ECall (EAttr (EName "M_i") "extract_segment") []
         [("enlarge", ENum 10)]);
    SAssign (TPair "first" "last")
      (EAttr (EAttr (EName "M_s") "lat") "segment_first_last");
    SAssign (TName "psi0_s")
      (method (EName "psi0_i") "extract_segment"
         [EName "first"; EName "last"]);
    SAssign (TName "init_env_data")
      (method (EAttr (EName "eng0_i") "env") "get_initialization_data"
         [EName "first"; EName "last"]);
    SAssign (TName "psi1_s") (method (EName "psi0_s") "copy" []);
    SAssign (TName "resume_psi1_s")
      (EDict [ (EStr "init_env_data", EName "init_env_data") ]) ].

(** Cell 9: DMRG on the segment. *)
Definition cell_9 : list stmt :=
  [ SAssign (TName "eng")
      (ECall TwoSiteDMRGEngine
         [EName "psi1_s"; EName "M_s"; EName "dmrg_params"]
         [("resume_data", EName "resume_psi1_s")]);
    SAssign (TPair "E1_s" "_") (method (EName "eng") "run" []) ].

(** Cell 12: project the left boundary onto the largest Schmidt state. *)
Definition cell_12 : list stmt :=
  [ SAssign (TName "psi_halfinf") (method (EName "psi0_s") "copy" []);
    SAssign (TName "S") (method (EName "psi0_s") "get_SL" [ENum 0]);
    SAssign (TName "proj")
      (method (EName "np") "zeros"
         [call (EName "len") [EName "S"]; EName "bool"]);
    SAssign (TSubscript (EName "proj")
               (method (EName "np") "argmax" [EName "S"]))
            (EBool true);
    SAssign (TName "B")
      (ECall (EAttr (EName "psi_halfinf") "get_B") [ENum 0]
         [("form", EStr "B")]);
    SExpr (method (EName "B") "iproject" [EName "proj"; EStr "vL"]);
    SExpr (ECall (EAttr (EName "psi_halfinf") "set_B") [ENum 0; EName "B"]
             [("form", EStr "B")]);
    SExpr (method (EName "psi_halfinf") "set_SL"
             [ENum 0; method (EName "np") "ones" [ENum 1; EName "float"]]);
    SExpr (method (EName "psi_halfinf") "canonical_form_finite" []);
    SExpr (method (EName "psi_halfinf") "test_sanity" []);
    SAssign (TName "init_env_data_halfinf")
      (method (EName "init_env_data") "copy" []);
    SAssign (TSubscript (EName "init_env_data_halfinf") (EStr "init_LP"))
      (method
         (call (EName "MPOEnvironment")
            [EName "psi0_i"; EAttr (EName "M_i") "H_MPO"; EName "psi0_i"])
         "init_LP" [ENum 0; ENum 0]);
    SAssign (TSubscript (EName "init_env_data_halfinf") (EStr "age_LP"))
      (ENum 0) ].

(** Cell 13: DMRG on the half-infinite segment. *)
Definition cell_13 : list stmt :=
  [ SAssign (TName "eng_halfinf")
      (ECall TwoSiteDMRGEngine
         [EName "psi_halfinf"; EName "M_s"; EName "dmrg_params"]
         [("resume_data",
           EDict [ (EStr "init_env_data", EName "init_env_data_halfinf") ])]);
    SExpr (method (EName "eng_halfinf") "run" []) ].

(** Cell 17: the model with a defect on the left boundary. *)
Definition model_params_defect : expr :=
  EDict [ (EStr "J", EFloat "1.");
          (EStr "g",
             EBinOp Add (EList [EFloat "0."])
               (EBinOp Mult
                  (EList [ESubscript (EName "model_params") (EStr "g")])
                  (EBinOp Sub (EAttr (EName "psi_halfinf") "L") (ENum 1))));
          (EStr "L", EAttr (EName "psi_halfinf") "L");
          (EStr "bc_MPS", EStr "segment");
          (EStr "conserve", EStr "best") ].

Definition cell_17 : list stmt :=
  [ SAssign (TName "model_params_defect") model_params_defect;
    SAssign (TName "M_s_defect")
      (call (EName "TFIChain") [EName "model_params_defect"]) ].

(** Cell 18: DMRG with the defect. *)
Definition cell_18 : list stmt :=
  [ SAssign (TName "psi_defect") (method (EName "psi_halfinf") "copy" []);
    SAssign (TName "eng_defect")
      (ECall TwoSiteDMRGEngine
         [EName "psi_defect"; EName "M_s_defect"; EName "dmrg_params"]
         [("resume_data",
           EDict [ (EStr "init_env_data", EName "init_env_data_halfinf") ])]);
    SExpr (method (EName "eng_defect") "run" []) ].

Definition entanglement_entropy (psi : string) : expr :=
  method (EName psi) "entanglement_entropy" [].

Definition expectation_value_Sigmaz (psi : string) : expr :=
  method (EName psi) "expectation_value" [EStr "Sigmaz"].

Definition segment_notebook : notebook :=
  [ Markdown "# Excitations with DMRG and segment boundary conditions";
    Markdown "This notebook illustrates how we can find excited states with DMRG.";
    Markdown "Please follow these guidelines:";
    code (Some 1) numpy_setup [];
    code (Some 2)
      [ SImport "tenpy" None;
        SImport "tenpy.linalg.np_conserved" (Some "npc");
        SFromImport "tenpy.algorithms" "dmrg";
        SFromImport "tenpy.networks.mps" "MPS";
        SFromImport "tenpy.models.xxz_chain" "XXZChain";
        SFromImport "tenpy.models.tf_ising" "TFIChain";
        setup_logging ] [];
    Markdown "## Infinite Systems with a modified center: segment boundary conditions";
    code (Some 3)
      [ SFromImport "tenpy.models.lattice" "TrivialLattice";
        SFromImport "tenpy.models.model" "MPOModel";
        SFromImport "tenpy.networks.mpo" "MPOEnvironment" ] [];
    code (Some 4) cell_4 [];
    code (Some 5) cell_5 [];
    code (Some 6) [ SExpr (EName "resume_psi0_i") ]
      [ "{'psi': <tenpy.networks.mps.MPS at 0x7fe6d7956580>,";
        " 'init_env_data': {'init_LP': <npc.Array shape=(21, 3, 21) labels=['vR*', 'wR', 'vR']>,";
        "  'init_RP': <npc.Array shape=(21, 3, 21) labels=['vL', 'wL', 'vL*']>,";
        "  'age_LP': 124,";
        "  'age_RP': 124}}" ];
    code (Some 7) [ SExpr (entanglement_entropy "psi0_i") ]
      [ "array([0.15349, 0.15349])" ];
    code (Some 8) cell_8 [];
    Markdown "Note: there is a somewhat arbitrary constant in the energy depending on the number of contracted sites in the environment. You should only compare energy differences!";
    code (Some 9) cell_9 [];
    code (Some 10) [ SExpr (entanglement_entropy "psi1_s") ]
      [ "array([0.15349, 0.15349, 0.15349, 0.15349, 0.15349, 0.15349, 0.15349, 0.15349, 0.15349, 0.15349,";
        "       0.15349, 0.15349, 0.15349, 0.15349, 0.15349, 0.15349, 0.15349, 0.15349, 0.15349, 0.15349,";
        "       0.15349])" ];
    code (Some 11)
      [ SExpr (EBinOp Sub (entanglement_entropy "psi1_s")
                 (method (EName "np") "mean" [entanglement_entropy "psi0_i"])) ]
      [ "array([-0., -0., -0., -0., -0., -0., -0., -0., -0., -0., -0., -0., -0., -0., -0., -0., -0., -0.,";
        "       -0., -0., -0.])" ];
    code None [] [];
    Markdown "## project left boundary onto largest right schmidt state, use trivial/finite left bc";
    code (Some 12) cell_12 [];
    code (Some 13) cell_13
      [ "(-239.8856633379392, <tenpy.networks.mps.MPS at 0x7fe6d402e940>)" ];
    code (Some 14) [ SExpr (entanglement_entropy "psi_halfinf") ]
      [ "array([-0.     ,  0.13332,  0.14834,  0.15192,  0.15297,  0.15331,  0.15343,  0.15347,  0.15348,";
        "        0.15349,  0.15349,  0.15349,  0.15349,  0.15349,  0.15349,  0.15349,  0.15349,  0.15349,";
        "        0.15349,  0.15349,  0.15349])" ];
    code (Some 15) [ SExpr (expectation_value_Sigmaz "psi_halfinf") ]
      [ "array([0.94082, 0.88667, 0.87957, 0.87797, 0.87753, 0.8774 , 0.87735, 0.87734, 0.87733, 0.87733,";
        "       0.87733, 0.87733, 0.87733, 0.87733, 0.87733, 0.87733, 0.87733, 0.87733, 0.87733, 0.87733])" ];
    code (Some 16) [ SExpr (EAttr (EName "psi_halfinf") "L") ] [ "20" ];
    Markdown "## modify model on left boundary";
    code (Some 17) cell_17 [];
    code (Some 18) cell_18
      [ "(-238.5696710150708, <tenpy.networks.mps.MPS at 0x7fe6c1eb3070>)" ];
    code (Some 19) [ SExpr (entanglement_entropy "psi_defect") ]
      [ "array([-0.     ,  0.38126,  0.2482 ,  0.1929 ,  0.16987,  0.16032,  0.15635,  0.15469,  0.154  ,";
        "        0.15371,  0.15358,  0.15353,  0.15351,  0.1535 ,  0.15349,  0.15349,  0.15349,  0.15349,";
        "        0.15349,  0.15349,  0.15349])" ];
    code (Some 20) [ SExpr (expectation_value_Sigmaz "psi_defect") ]
      [ "array([0.74536, 0.74534, 0.83553, 0.86216, 0.87149, 0.87501, 0.87639, 0.87694, 0.87717, 0.87726,";
        "       0.8773 , 0.87732, 0.87732, 0.87733, 0.87733, 0.87733, 0.87733, 0.87733, 0.87733, 0.87733])" ];
    code None [] [];
    code None [] [] ].

(** The notebooks of the repository whose source is at hand. *)
Definition repository_notebooks : list notebook :=
  [ template_notebook; segment_notebook ].

(** The code cells of a notebook, in order, and all its statements. *)
Definition code_cells (nb : notebook) : list code_cell :=
  flat_map (fun c => match c with Code cc => [cc] | Markdown _ => [] end) nb.

Definition statements (nb : notebook) : list stmt :=
  flat_map source (code_cells nb).

End Notebooks.
Import Notebooks.

(* ================================================================== *)
(** ** The CI workflow ("Test notebooks") *)

Module CI.

(** A step of a job: an action ([uses:]) or shell commands ([run:]), each
    command as its argument vector. *)
Inductive step :=
| Uses (name action : string) (settings : list (string * string))
| Run (name : string) (commands : list (list string)).

(** The one form of job condition the workflow uses:
    [github.event.pull_request.draft == <literal>]. *)
Inductive condition :=
| DraftEquals (literal : bool).

Record job := {
  job_if : condition;
  runs_on : string;
  env : list (string * string);
  steps : list step
}.

Record workflow := {
  name : string;
  on_push_branches : list string;
  on_pull_request_types : list string;
  jobs : list (string * job)
}.

Definition pytest_command : list string :=
  [ "pytest"; "--nbmake"; ".";
    "--ignore=12_dmrg_mixer.ipynb";
    "--ignore=14_segment_half_infinite.ipynb";
    "-W"; "ignore" ].

Definition build : job :=
  {| job_if := DraftEquals false;
     runs_on := "ubuntu-latest";
     env := [("PY_COLORS", "1")];
     steps :=
       [ Uses "Checkout" "actions/checkout@v4" [("submodules", "recursive")];
         Uses "Set up Python 3.12" "actions/setup-python@v5"
           [("python-version", "3.12")];
         Run "Install dependencies"
           [ ["python"; "-m"; "pip"; "install"; "--upgrade"; "pip"];
             ["python"; "-m"; "pip"; "install"; "--upgrade"; "setuptools"; "build"];
             ["python"; "-m"; "pip"; "install"; "--upgrade"; "pytest"; "nbmake"];
             ["python"; "-m"; "pip"; "install"; "--upgrade";
              "numpy"; "scipy"; "matplotlib"; "pyyaml"; "h5py"] ];
         Run "Build and install tenpy"
           [ ["python"; "-m"; "pip"; "install";
              "physics-tenpy @ git+https://github.com/tenpy/tenpy"] ];
         Run "Run pytest on notebooks" [ pytest_command ] ] |}.

Definition test_notebooks : workflow :=
  {| name := "Test notebooks";
     on_push_branches := ["main"];
     on_pull_request_types :=
       ["opened"; "synchronize"; "reopened"; "ready_for_review"];
     jobs := [("build", build)] |}.

(** *** What GitHub and pytest do with it *)

(** The events that can start a workflow run. *)
Inductive event :=
| Push (branch : string)
| PullRequest (activity : string) (draft : bool).

Definition mem (s : string) (l : list string) : bool :=
  existsb (String.eqb s) l.

Definition triggered (wf : workflow) (ev : event) : bool :=
  match ev with
  | Push branch => mem branch (on_push_branches wf)
  | PullRequest activity _ => mem activity (on_pull_request_types wf)
  end.

(** [github.event.pull_request.draft]: absent (null) on a push. *)
Definition draft_of (ev : event) : option bool :=
  match ev with
  | Push _ => None
  | PullRequest _ d => Some d
  end.

(** [==] of the expression language compares loosely: null and booleans
    are first turned into numbers (null and false into 0, true into 1). *)
Definition number_of (v : option bool) : nat :=
  match v with
  | Some true => 1
  | _ => 0
  end.

Definition holds (c : condition) (ev : event) : bool :=
  match c with
  | DraftEquals b => Nat.eqb (number_of (draft_of ev)) (number_of (Some b))
  end.

(** [s] without the prefix [p], when it starts with it. *)
Fixpoint strip_prefix (p s : string) : option string :=
  match p, s with
  | EmptyString, _ => Some s
  | String a p', String b s' =>
      if Ascii.eqb a b then strip_prefix p' s' else None
  | String _ _, EmptyString => None
  end.

Fixpoint ends_with (suffix s : string) : bool :=
  String.eqb suffix s ||
  match s with
  | EmptyString => false
  | String _ s' => ends_with suffix s'
  end.

(** The paths named by [--ignore=...]. *)
Definition ignored (argv : list string) : list string :=
  flat_map (fun a => match strip_prefix "--ignore=" a with
                     | Some p => [p]
                     | None => []
                     end) argv.

Definition is_notebook (file : string) : bool := ends_with ".ipynb" file.

(** [pytest --nbmake .] run from the repository root executes a notebook
    [file] of the root directory unless an [--ignore] names it. *)
Definition pytest_runs (argv : list string) (file : string) : bool :=
  match argv with
  | prog :: args =>
      String.eqb prog "pytest" && mem "--nbmake" args && mem "." args
      && is_notebook file && negb (mem file (ignored args))
  | [] => false
  end.

Definition step_runs (s : step) (file : string) : bool :=
  match s with
  | Run _ commands => existsb (fun argv => pytest_runs argv file) commands
  | Uses _ _ _ => false
  end.

(** The steps of a job run in order; the steps before the pytest step
    (checkout, Python, pip) are taken to succeed. *)
Definition job_runs (j : job) (ev : event) (file : string) : bool :=
  holds (job_if j) ev && existsb (fun s => step_runs s file) (steps j).

(** The workflow executes notebook [file] under pytest on event [ev]. *)
Definition executes (wf : workflow) (ev : event) (file : string) : bool :=
  triggered wf ev && existsb (fun j => job_runs (snd j) ev file) (jobs wf).

(** [file] names a file of the repository root (no directory part). *)
Definition in_root (file : string) : bool :=
  negb (existsb (Ascii.eqb "/") (list_ascii_of_string file)).

(** Every notebook is executed on pushes to main and on pull requests. *)
Definition runs_every_notebook (wf : workflow) : Prop :=
  forall file,
    is_notebook file = true -> in_root file = true ->
    executes wf (Push "main") file = true /\
    forall activity draft,
      In activity (on_pull_request_types wf) ->
      executes wf (PullRequest activity draft) file = true.

End CI.

(* ================================================================== *)
(** ** Running a notebook *)

Module Sem.

#[local] Open Scope list_scope.

(** The operations a notebook asks of the Python runtime and the libraries
    loaded into it. *)
Inductive opname :=
| OpImport (module : string)
| OpImportFrom (module name : string)
| OpName (x : string)
| OpGetAttr (a : string)
| OpCall
| OpDict
| OpList
| OpGetItem
| OpSetItem
| OpBinOp (b : binop)
| OpUnpack
| OpDisplay
| OpRaise.

Inductive literal :=
| LNum (n : Z)
| LFloat (text : string)
| LStr (s : string)
| LBool (b : bool).

(** The name an [import m] without alias binds: the top-level package. *)
Fixpoint root (m : string) : string :=
  match m with
  | EmptyString => EmptyString
  | String c m' => if Ascii.eqb c "." then EmptyString else String c (root m')
  end.

Section Semantics.

(** Values, the state of everything outside the notebook's namespace
    (objects, modules, files, the display), and exceptions. *)
Context {V W X : Type}.

(** The runtime: Python itself, numpy, TeNPy.  Every operation may change
    the world and may raise. *)
Record runtime := {
  rt_literal : literal -> V;
  rt_builtin : string -> option V;
  rt_name_error : string -> X;
  rt_import : string -> bool -> W -> X + V * W;
  rt_import_from : string -> string -> W -> X + V * W;
  rt_getattr : V -> string -> W -> X + V * W;
  rt_call : V -> list V -> list (string * V) -> W -> X + V * W;
  rt_dict : list (V * V) -> W -> X + V * W;
  rt_list : list V -> W -> X + V * W;
  rt_getitem : V -> V -> W -> X + V * W;
  rt_setitem : V -> V -> V -> W -> X + unit * W;
  rt_binop : binop -> V -> V -> W -> X + V * W;
  rt_unpack2 : V -> W -> X + (V * V) * W;
  rt_display : V -> W -> X + unit * W;
  rt_raise : V -> X
}.

Variable rt : runtime.

(** The notebook's global namespace, newest binding first. *)
Definition env := list (string * V).

Record state := { names : env; world : W }.

Inductive res (A : Type) :=
| Ok (a : A) (s : state)
| Err (x : X) (s : state)
| Stuck.
Arguments Ok {A}.
Arguments Err {A}.
Arguments Stuck {A}.

(** One entry of the log: the operation and, if it raised, the exception. *)
Inductive event := Ev (o : opname) (failure : option X).

Definition M (A : Type) := state -> list event * res A.

Definition ret {A} (a : A) : M A := fun s => ([], Ok a s).

Definition bind {A B} (m : M A) (k : A -> M B) : M B :=
  fun s =>
    let (t1, r) := m s in
    match r with
    | Ok a s' => let (t2, r') := k a s' in (t1 ++ t2, r')
    | Err x s' => (t1, Err x s')
    | Stuck => (t1, Stuck)
    end.

Notation "x <- m ;; k" := (bind m (fun x => k))
  (at level 61, m at next level, right associativity).
Notation "m ;;; k" := (bind m (fun _ => k))
  (at level 61, right associativity).

(** A runtime operation on the world. *)
Definition op {A} (o : opname) (f : W -> X + A * W) : M A :=
  fun s =>
    match f (world s) with
    | inl x => ([Ev o (Some x)], Err x s)
    | inr (a, w') => ([Ev o None], Ok a {| names := names s; world := w' |})
    end.

Definition raise {A} (x : X) : M A :=
  fun s => ([Ev OpRaise (Some x)], Err x s).

Definition stuck {A} : M A := fun s => ([], Stuck).

(** [try: m except: h] *)
Definition try (m h : M unit) : M unit :=
  fun s =>
    let (t1, r) := m s in
    match r with
    | Err _ s' => let (t2, r') := h s' in (t1 ++ t2, r')
    | _ => (t1, r)
    end.

Fixpoint find (x : string) (e : env) : option V :=
  match e with
  | [] => None
  | (y, v) :: e' => if String.eqb x y then Some v else find x e'
  end.

(** A name is looked up in the globals, then in the builtins. *)
Definition lookup (x : string) : M V :=
  fun s =>
    match find x (names s) with
    | Some v => ([Ev (OpName x) None], Ok v s)
    | None =>
        match rt_builtin rt x with
        | Some v => ([Ev (OpName x) None], Ok v s)
        | None => let e := rt_name_error rt x in
                  ([Ev (OpName x) (Some e)], Err e s)
        end
    end.

Definition assign (x : string) (v : V) : M unit :=
  fun s => ([], Ok tt {| names := (x, v) :: names s; world := world s |}).

Section Lists.
Context {A B : Type}.
Variable f : A -> M B.

(** Left to right, stopping at the first exception. *)
Fixpoint mapM (l : list A) : M (list B) :=
  match l with
  | [] => ret []
  | a :: l' => b <- f a ;; bs <- mapM l' ;; ret (b :: bs)
  end.
End Lists.

Section Blocks.
Context {A : Type}.
Variable f : A -> M unit.

Fixpoint forM_ (l : list A) : M unit :=
  match l with
  | [] => ret tt
  | a :: l' => f a ;;; forM_ l'
  end.
End Blocks.

(** Expressions: callee before arguments, positional before keyword
    arguments, keys before values, left operand before right. *)
Fixpoint eval (e : expr) : M V :=
  match e with
  | EName x => lookup x
  | ENum n => ret (rt_literal rt (LNum n))
  | EFloat t => ret (rt_literal rt (LFloat t))
  | EStr s => ret (rt_literal rt (LStr s))
  | EBool b => ret (rt_literal rt (LBool b))
  | EAttr e a => v <- eval e ;; op (OpGetAttr a) (rt_getattr rt v a)
  | ECall f args kwargs =>
      fv <- eval f ;;
      avs <- mapM eval args ;;
      kvs <- mapM (fun ka => v <- eval (snd ka) ;; ret (fst ka, v)) kwargs ;;
      op OpCall (rt_call rt fv avs kvs)
  | EDict items =>
      ivs <- mapM (fun kv => k <- eval (fst kv) ;; v <- eval (snd kv) ;;
                             ret (k, v)) items ;;
      op OpDict (rt_dict rt ivs)
  | EList items => vs <- mapM eval items ;; op OpList (rt_list rt vs)
  | ESubscript e i =>
      v <- eval e ;; iv <- eval i ;; op OpGetItem (rt_getitem rt v iv)
  | EBinOp b l r =>
      lv <- eval l ;; rv <- eval r ;; op (OpBinOp b) (rt_binop rt b lv rv)
  end.

(** The right-hand side is already evaluated when the target is. *)
Definition store (t : target) (v : V) : M unit :=
  match t with
  | TName x => assign x v
  | TPair x y =>
      p <- op OpUnpack (rt_unpack2 rt v) ;;
      assign x (fst p) ;;; assign y (snd p)
  | TSubscript o i =>
      ov <- eval o ;; iv <- eval i ;; op OpSetItem (rt_setitem rt ov iv v)
  end.

(** Statements.  The forms no notebook uses and that need loops,
    closures or classes have no meaning here: they are [stuck]. *)
Fixpoint exec (s : stmt) : M unit :=
  match s with
  | SImport m None =>
      v <- op (OpImport m) (rt_import rt m true) ;; assign (root m) v
  | SImport m (Some a) =>
      v <- op (OpImport m) (rt_import rt m false) ;; assign a v
  | SFromImport m n =>
      v <- op (OpImportFrom m n) (rt_import_from rt m n) ;; assign n v
  | SAssign t e => v <- eval e ;; store t v
  | SExpr e => eval e ;;; ret tt
  | STry body handler => try (forM_ exec body) (forM_ exec handler)
  | SRaise e => v <- eval e ;; raise (rt_raise rt v)
  | SDef _ _ _ | SClass _ _ | SFor _ _ _ | SWhile _ _ | SIf _ _ _
  | SWith _ _ | SAssert _ => stuck
  end.

(** A cell: its statements in order; when the last one is an expression,
    its value goes to the display hook. *)
Fixpoint exec_cell (src : list stmt) : M unit :=
  match src with
  | [] => ret tt
  | [SExpr e] => v <- eval e ;; op OpDisplay (rt_display rt v)
  | s :: rest => exec s ;;; exec_cell rest
  end.

(** The notebook, run from the top in a fresh namespace. *)
Definition run (nb : notebook) (w : W) : list event * res unit :=
  forM_ exec_cell (map source (code_cells nb)) {| names := []; world := w |}.

(** *** What it means for failures to pass through untouched *)

Definition succeeded (ev : event) : Prop :=
  match ev with
  | Ev _ None => True
  | Ev _ (Some _) => False
  end.

(** A run is faithful to the failures of its operations when: it ends
    normally only after every operation succeeded, and it ends with
    exception [x] only when the last operation it issued raised [x] and
    all operations before succeeded.  It is never stuck. *)
Definition faithful {A} (out : list event * res A) : Prop :=
  match out with
  | (tr, Ok _ _) => Forall succeeded tr
  | (tr, Err x _) =>
      exists tr0 o, tr = tr0 ++ [Ev o (Some x)] /\ Forall succeeded tr0
  | (tr, Stuck) => False
  end.

Definition propagating {A} (m : M A) : Prop := forall s, faithful (m s).

End Semantics.

Arguments runtime : clear implicits.
Arguments Ok {V W X A}.
Arguments Err {V W X A}.
Arguments Stuck {V W X A}.
Arguments Ev {X}.
Arguments event : clear implicits.

(** Failures pass through notebook [nb]: on every runtime and from every
    initial world, the run is faithful. *)
Definition failures_pass_through (nb : notebook) : Prop :=
  forall (V W X : Type) (rt : runtime V W X) (w : W), faithful (run rt nb w).

End Sem.

(* ================================================================== *)
(** ** Reading the code cells *)

Module Analysis.

#[local] Open Scope list_scope.

(** *** Shape of a statement *)

(** The statement forms the notebooks are written in. *)
Definition plain (s : stmt) : bool :=
  match s with
  | SImport _ _ | SFromImport _ _ | SAssign _ _ | SExpr _ => true
  | _ => false
  end.

(** [try], [raise] or [assert], at any depth. *)
Fixpoint failure_logic (s : stmt) : bool :=
  match s with
  | STry _ _ | SRaise _ | SAssert _ => true
  | SDef _ _ body | SClass _ body | SFor _ _ body | SWhile _ body
  | SWith _ body => existsb failure_logic body
  | SIf _ thn els => existsb failure_logic thn || existsb failure_logic els
  | SImport _ _ | SFromImport _ _ | SAssign _ _ | SExpr _ => false
  end.

Definition no_failure_logic (nb : notebook) : bool :=
  forallb (fun s => negb (failure_logic s)) (statements nb).

(** *** Where a name comes from *)

Inductive origin :=
| Tenpy      (* the TeNPy package, or a value obtained from it *)
| Numpy
| OtherLibrary
| Builtin    (* a name the notebook never binds: len, bool, float *)
| Local.     (* a literal, display or operator result built in the cell *)


Definition origin_of_module (m : string) : origin :=
  if String.eqb (Sem.root m) "tenpy" then Tenpy
  else if String.eqb (Sem.root m) "numpy" then Numpy
  else OtherLibrary.

Definition table := list (string * origin).

Fixpoint origin_of_name (x : string) (tbl : table) : origin :=
  match tbl with
  | [] => Builtin
  | (y, o) :: tbl' => if String.eqb x y then o else origin_of_name x tbl'
  end.

(** Attribute access, call and subscript inherit the origin of what they
    are applied to: whatever TeNPy returns counts as TeNPy's, also the
    dictionary returned by [get_initialization_data], so that
    [init_env_data.copy()] counts as a call into the library. *)
Fixpoint origin_of (tbl : table) (e : expr) : origin :=
  match e with
  | EName x => origin_of_name x tbl
  | EAttr e _ | ECall e _ _ | ESubscript e _ => origin_of tbl e
  | ENum _ | EFloat _ | EStr _ | EBool _ | EDict _ | EList _
  | EBinOp _ _ _ => Local
  end.

Definition bind_target (t : target) (o : origin) (tbl : table) : table :=
  match t with
  | TName x => (x, o) :: tbl
  | TPair x y => (y, o) :: (x, o) :: tbl
  | TSubscript _ _ => tbl
  end.

Definition bind_stmt (s : stmt) (tbl : table) : table :=
  match s with
  | SImport m None => (Sem.root m, origin_of_module m) :: tbl
  | SImport m (Some a) => (a, origin_of_module m) :: tbl
  | SFromImport m n => (n, origin_of_module m) :: tbl
  | SAssign t e => bind_target t (origin_of tbl e) tbl
  | _ => tbl
  end.

(** *** Kind of a step *)

Inductive kind :=
| KImport
| KLibraryCall      (* a call whose callee comes from TeNPy *)
| KParameterDict    (* name = { ... } *)
| KNumpyCall        (* a call whose callee comes from numpy *)
| KOtherCall        (* a call of a builtin or of another library *)
| KLiteral          (* name = number, string, boolean or list *)
| KRead             (* a name, attribute or item, bound or displayed *)
| KItemAssign       (* container[index] = value, the value not a call *)
| KArithmetic       (* an operator applied to two values *)
| KDefinition       (* def, class *)
| KControl          (* for, while, if, with *)
| KFailure.         (* try, raise, assert *)


Definition kind_of_call (o : origin) : kind :=
  match o with
  | Tenpy => KLibraryCall
  | Numpy => KNumpyCall
  | OtherLibrary | Builtin | Local => KOtherCall
  end.

(** The kind of [target = e] ([Some target]) or of the statement [e]. *)
Definition kind_of_expr (tbl : table) (t : option target) (e : expr) : kind :=
  match e with
  | ECall f _ _ => kind_of_call (origin_of tbl f)
  | EBinOp _ _ _ => KArithmetic
  | EName _ | EAttr _ _ | ESubscript _ _ =>
      match t with
      | Some (TSubscript _ _) => KItemAssign
      | _ => KRead
      end
  | EDict _ =>
      match t with
      | Some (TName _) => KParameterDict
      | Some (TSubscript _ _) => KItemAssign
      | _ => KLiteral
      end
  | ENum _ | EFloat _ | EStr _ | EBool _ | EList _ =>
      match t with
      | Some (TSubscript _ _) => KItemAssign
      | _ => KLiteral
      end
  end.

Definition kind_of (tbl : table) (s : stmt) : kind :=
  match s with
  | SImport _ _ | SFromImport _ _ => KImport
  | SAssign t e => kind_of_expr tbl (Some t) e
  | SExpr e => kind_of_expr tbl None e
  | SDef _ _ _ | SClass _ _ => KDefinition
  | SFor _ _ _ | SWhile _ _ | SIf _ _ _ | SWith _ _ => KControl
  | STry _ _ | SRaise _ | SAssert _ => KFailure
  end.

(** Each statement with its kind, names resolved as of that statement. *)
Fixpoint classify (tbl : table) (src : list stmt) : list (stmt * kind) * table :=
  match src with
  | [] => ([], tbl)
  | s :: rest =>
      let (ks, tbl') := classify (bind_stmt s tbl) rest in
      ((s, kind_of tbl s) :: ks, tbl')
  end.

Fixpoint classify_cells (tbl : table) (cs : list code_cell)
  : list (option nat * list (stmt * kind)) :=
  match cs with
  | [] => []
  | c :: rest =>
      let (ks, tbl') := classify tbl (source c) in
      (execution_count c, ks) :: classify_cells tbl' rest
  end.

Definition classified (nb : notebook) : list (option nat * list (stmt * kind)) :=
  classify_cells [] (code_cells nb).

Definition from_cell (first : nat) (c : option nat * list (stmt * kind)) : bool :=
  match fst c with
  | Some n => Nat.leb first n
  | None => false
  end.

(** The segment-boundary DMRG workflow: the steps of the segment notebook
    from the cell that sets the model parameters (cell 4) on; the cells
    before it only import and configure logging and printing. *)
Definition segment_workflow : list (stmt * kind) :=
  flat_map snd (filter (from_cell 4) (classified segment_notebook)).

(** A call into the library, or the construction of a parameter
    dictionary. *)
Definition library_call_or_parameters (k : kind) : bool :=
  match k with
  | KLibraryCall | KParameterDict => true
  | _ => false
  end.

Definition entirely_library_calls (steps : list (stmt * kind)) : Prop :=
  Forall (fun sk => library_call_or_parameters (snd sk) = true) steps.

(** Glue between the calls: no call into TeNPy, no dictionary literal. *)
Definition glue (k : kind) : bool :=
  match k with
  | KNumpyCall | KLiteral | KRead | KItemAssign | KArithmetic => true
  | _ => false
  end.

Definition count (p : kind -> bool) (steps : list (stmt * kind)) : nat :=
  length (filter (fun sk => p (snd sk)) steps).

(** *** What a notebook does *)























(** *** Captured results *)

Definition count_char (c : ascii) (s : string) : nat :=
  length (filter (Ascii.eqb c) (list_ascii_of_string s)).

(** The number of entries of a printed array: one more than its commas. *)
Definition entries (lines : list string) : nat :=
  S (list_sum (map (count_char ",") lines)).

Definition digit (c : ascii) : option nat :=
  let n := nat_of_ascii c in
  if Nat.leb 48 n && Nat.leb n 57 then Some (n - 48)%nat else None.

Fixpoint decimal (acc : nat) (s : string) : option nat :=
  match s with
  | EmptyString => Some acc
  | String c s' =>
      match digit c with
      | Some d => decimal (10 * acc + d)%nat s'
      | None => None
      end
  end.

(** A result that is a single non-negative integer. *)
Definition number (lines : list string) : option nat :=
  match lines with
  | [String c s] => decimal 0 (String c s)
  | _ => None
  end.

(** The results of the cells that display [psi.m(...)], by state. *)
Definition displayed_arrays (nb : notebook) (m : string)
  : list (string * nat) :=
  flat_map (fun c => match source c with
                     | [SExpr (ECall (EAttr (EName psi) m') _ _)] =>
                         if String.eqb m m' then [(psi, entries (result c))]
                         else []
                     | _ => []
                     end) (code_cells nb).

(** The results of the cells that display [psi.L]. *)
Definition displayed_lengths (nb : notebook) : list (string * option nat) :=
  flat_map (fun c => match source c with
                     | [SExpr (EAttr (EName psi) a)] =>
                         if String.eqb a "L" then [(psi, number (result c))]
                         else []
                     | _ => []
                     end) (code_cells nb).

Fixpoint item (key : string) (items : list (expr * expr)) : option expr :=
  match items with
  | [] => None
  | (EStr k, v) :: rest => if String.eqb k key then Some v else item key rest
  | _ :: rest => item key rest
  end.

Fixpoint keyword (key : string) (kwargs : list (string * expr)) : option expr :=
  match kwargs with
  | [] => None
  | (k, v) :: rest => if String.eqb k key then Some v else keyword key rest
  end.

(** ['L'] of the dictionary bound to [model_params]: the unit cell. *)
Definition unit_cell (nb : notebook) : list Z :=
  flat_map (fun s => match s with
                     | SAssign (TName x) (EDict items) =>
                         if String.eqb x "model_params" then
                           match item "L" items with
                           | Some (ENum n) => [n]
                           | _ => []
                           end
                         else []
                     | _ => []
                     end) (statements nb).

(** [enlarge=] of the calls of [extract_segment]. *)
Definition enlarge (nb : notebook) : list Z :=
  flat_map (fun s => match s with
                     | SAssign _ (ECall (EAttr _ m) _ kwargs) =>
                         if String.eqb m "extract_segment" then
                           match keyword "enlarge" kwargs with
                           | Some (ENum n) => [n]
                           | _ => []
                           end
                         else []
                     | _ => []
                     end) (statements nb).

(** [enlarge] times the unit cell. *)
Definition expected_sites (nb : notebook) : list nat :=
  flat_map (fun e => map (fun u => Z.to_nat (e * u)) (unit_cell nb))
           (enlarge nb).

End Analysis.

(* ================================================================== *)
(** ** A runtime to run the notebooks on *)

Module Toy.

#[local] Open Scope string_scope.

(** Values are the text of the expression that produced them, the world
    counts the operations performed, exceptions are their names.  Calls of
    a method whose name is in [failing] raise [ValueError]; everything
    else succeeds. *)
Definition called_method (f : string) (failing : list string) : bool :=
  existsb (fun m => CI.ends_with ("." ++ m) f) failing.

Definition toy (failing : list string) : Sem.runtime string nat string :=
  {| Sem.rt_literal := fun l =>
       match l with
       | Sem.LNum _ => "<int>"
       | Sem.LFloat t => t
       | Sem.LStr s => s
       | Sem.LBool b => if b then "True" else "False"
       end;
     Sem.rt_builtin := fun x =>
       if CI.mem x ["len"; "bool"; "float"; "print"] then Some x else None;
     Sem.rt_name_error := fun x => "NameError: " ++ x;
     Sem.rt_import := fun m top w =>
       inr (if top then Sem.root m else m, S w);
     Sem.rt_import_from := fun m n w => inr (m ++ "." ++ n, S w);
     Sem.rt_getattr := fun v a w => inr (v ++ "." ++ a, S w);
     Sem.rt_call := fun f _ _ w =>
       if called_method f failing then inl "ValueError"
       else inr (f ++ "()", S w);
     Sem.rt_dict := fun _ w => inr ("{}", S w);
     Sem.rt_list := fun _ w => inr ("[]", S w);
     Sem.rt_getitem := fun v _ w => inr (v ++ "[]", S w);
     Sem.rt_setitem := fun _ _ _ w => inr (tt, S w);
     Sem.rt_binop := fun _ l r w => inr ("(" ++ l ++ " op " ++ r ++ ")", S w);
     Sem.rt_unpack2 := fun v w => inr ((v ++ "[0]", v ++ "[1]"), S w);
     Sem.rt_display := fun _ w => inr (tt, S w);
     Sem.rt_raise := fun v => v |}.

(** How a run ended. *)
Definition ending {A} (out : list (Sem.event string) * @Sem.res string nat string A)
  : option string :=
  match snd out with
  | Sem.Ok _ _ => None
  | Sem.Err x _ => Some x
  | Sem.Stuck => Some "stuck"
  end.

(** What a handler in the notebook would look like:
<<
try:
    psi.test_sanity()
except:
    pass
>> *)
Definition guarded_check : notebook :=
  [ code None
      [ SAssign (TName "psi") (call (EName "len") []);
        STry [ SExpr (method (EName "psi") "test_sanity" []) ] [] ] [] ].

Definition unguarded_check : notebook :=
  [ code None
      [ SAssign (TName "psi") (call (EName "len") []);
        SExpr (method (EName "psi") "test_sanity" []) ] [] ].

End Toy.

(* ================================================================== *)
(** ** The computations the cells carry out themselves *)

From Stdlib Require QArith.
From Stdlib Require Import Lia.

(** *** The projection mask of cell 12 *)

Module Projection.

Import QArith.
#[local] Open Scope Q_scope.
#[local] Open Scope list_scope.

(** The Schmidt values [S] are finite floats; only their order matters
    here, so they are taken as rationals.  The three numpy operations are
    what numpy documents. *)

(** [np.zeros(n, bool)] *)
Definition zeros (n : nat) : list bool := repeat false n.

(** [np.ones(n, float)] *)
Definition ones (n : nat) : list Q := repeat 1 n.

(** The scan behind [np.argmax]: [best] is the largest value so far, found
    at [best_at]; [next] is the index of the head of [l].  A later value
    replaces [best] only when strictly larger. *)
Fixpoint argmax_from (best : Q) (best_at next : nat) (l : list Q) : nat :=
  match l with
  | [] => best_at
  | x :: l' =>
      if Qlt_le_dec best x then argmax_from x next (S next) l'
      else argmax_from best best_at (S next) l'
  end.

(** [np.argmax(S)]: the index of the first occurrence of the maximum;
    [None] is the [ValueError] numpy raises on an empty array. *)
Definition argmax (S : list Q) : option nat :=
  match S with
  | [] => None
  | x :: l => Some (argmax_from x 0 1 l)
  end.

(** [a[i] = b] for an index that is not negative; [None] is the
    [IndexError] of an index past the end. *)
Definition setitem (a : list bool) (i : nat) (b : bool) : option (list bool) :=
  if Nat.ltb i (length a) then Some (firstn i a ++ b :: skipn (S i) a)
  else None.

(** The mask:
<<
proj = np.zeros(len(S), bool)
proj[np.argmax(S)] = True
>> *)
Definition proj (S : list Q) : option (list bool) :=
  let proj := zeros (length S) in
  match argmax S with
  | Some i => setitem proj i true
  | None => None
  end.

(** The number of indices a mask keeps. *)
Definition kept (mask : list bool) : nat := count_occ bool_dec mask true.

(** Three Schmidt values, the largest one twice (3/4 and 6/8). *)
Definition sample : list Q := [1 # 2; 3 # 4; 6 # 8].

End Projection.

(** *** The parameters of the defect model, cell 17 *)

Module Defect.

#[local] Open Scope list_scope.

(** The Python values the parameter dictionaries hold. *)
Inductive pyval :=
| PFloat (literal : string)
| PInt (n : Z)
| PStr (s : string)
| PList (items : list pyval).

(** A dictionary with string keys, in insertion order. *)
Definition dict := list (string * pyval).

(** [d[key]]; [None] is the [KeyError]. *)
Fixpoint getitem (key : string) (d : dict) : option pyval :=
  match d with
  | [] => None
  | (k, v) :: d' => if String.eqb key k then Some v else getitem key d'
  end.

(** [l * n]: [n] copies of [l] one after the other, none when [n] is zero
    or negative. *)
Definition list_mul {A} (l : list A) (n : Z) : list A :=
  concat (repeat l (Z.to_nat n)).

(** The dictionary of cell 4. *)
Definition model_params : dict :=
  [ ("J", PFloat "1."); ("g", PFloat "1.5"); ("L", PInt 2);
    ("bc_MPS", PStr "infinite"); ("conserve", PStr "best") ].

(** [[0.] + [g] * (L-1)] *)
Definition fields (g : pyval) (L : Z) : list pyval :=
  [PFloat "0."] ++ list_mul [g] (L - 1).

(** The dictionary of cell 17, from [model_params] and the value [L] read
    from [psi_halfinf.L] (read twice; it is taken to be the same both
    times):
<<
model_params_defect = {
    'J': 1. , 'g': [0.] + [model_params['g']] * (psi_halfinf.L-1),
    'L': psi_halfinf.L,
    'bc_MPS': 'segment',
    'conserve': 'best',
}
>> *)
Definition model_params_defect (model_params : dict) (L : Z) : option dict :=
  match getitem "g" model_params with
  | None => None
  | Some g =>
      Some [ ("J", PFloat "1."); ("g", PList (fields g L)); ("L", PInt L);
             ("bc_MPS", PStr "segment"); ("conserve", PStr "best") ]
  end.

End Defect.

(** *** The environment data of the half-infinite run, cell 12 *)

Module EnvData.

#[local] Open Scope list_scope.

(** Dictionaries are objects: a name holds the address of one, and two
    names can hold the same address.  Their values are integers, opaque
    library objects (the environment tensors) or addresses. *)
Inductive value :=
| Int (n : Z)
| Array (id : nat)
| Ref (address : nat).

Definition dict := list (string * value).

(** The dictionaries alive, by address. *)
Definition heap := list dict.

Fixpoint getitem (key : string) (d : dict) : option value :=
  match d with
  | [] => None
  | (k, v) :: d' => if String.eqb key k then Some v else getitem key d'
  end.

(** [d[key] = v] on the items: an existing key keeps its place. *)
Fixpoint set (key : string) (v : value) (d : dict) : dict :=
  match d with
  | [] => [(key, v)]
  | (k, v') :: d' =>
      if String.eqb key k then (k, v) :: d' else (k, v') :: set key v d'
  end.

Fixpoint update (a : nat) (d : dict) (h : heap) : heap :=
  match h, a with
  | [], _ => []
  | _ :: h', O => d :: h'
  | d' :: h', S a' => d' :: update a' d h'
  end.

(** [x.copy()]: a new dictionary with the same items (the values are not
    copied); [None] when [a] is no dictionary. *)
Definition copy (h : heap) (a : nat) : option (heap * nat) :=
  match nth_error h a with
  | Some d => Some (h ++ [d], length h)
  | None => None
  end.

(** [x[key] = v], in place. *)
Definition setitem (h : heap) (a : nat) (key : string) (v : value)
  : option heap :=
  match nth_error h a with
  | Some d => Some (update a (set key v d) h)
  | None => None
  end.

(** The last three statements of cell 12, with [init_LP] the value
    [MPOEnvironment(psi0_i, M_i.H_MPO, psi0_i).init_LP(0, 0)] returned by
    the library:
<<
init_env_data_halfinf = init_env_data.copy()
init_env_data_halfinf['init_LP'] = ...
init_env_data_halfinf['age_LP'] = 0
>>
    The result is the heap and the address bound to
    [init_env_data_halfinf]. *)
Definition init_env_data_halfinf (h : heap) (init_env_data : nat)
    (init_LP : value) : option (heap * nat) :=
  match copy h init_env_data with
  | None => None
  | Some (h1, halfinf) =>
      match setitem h1 halfinf "init_LP" init_LP with
      | None => None
      | Some h2 =>
          match setitem h2 halfinf "age_LP" (Int 0) with
          | None => None
          | Some h3 => Some (h3, halfinf)
          end
      end
  end.

(** The same statements without the [.copy()]: the name is a second name
    for the dictionary the first segment run was given. *)
Definition patched_in_place (h : heap) (init_env_data : nat)
    (init_LP : value) : option (heap * nat) :=
  match setitem h init_env_data "init_LP" init_LP with
  | None => None
  | Some h2 =>
      match setitem h2 init_env_data "age_LP" (Int 0) with
      | None => None
      | Some h3 => Some (h3, init_env_data)
      end
  end.

(** The heap after cell 8 as the display of cell 6 shows its shape: the
    environment data at address 0, [resume_psi1_s] at address 1. *)
Definition after_cell_8 : heap :=
  [ [ ("init_LP", Array 0); ("init_RP", Array 1);
      ("age_LP", Int 124); ("age_RP", Int 124) ];
    [ ("init_env_data", Ref 0) ] ].

End EnvData.

(** *** Names: bound before they are read *)

Module Scope.

#[local] Open Scope list_scope.

(** The names an expression reads. *)
Fixpoint names_of (e : expr) : list string :=
  match e with
  | EName x => [x]
  | ENum _ | EFloat _ | EStr _ | EBool _ => []
  | EAttr e _ => names_of e
  | ECall f args kwargs =>
      names_of f ++ flat_map names_of args
      ++ flat_map (fun ka => names_of (snd ka)) kwargs
  | EDict items =>
      flat_map (fun kv => names_of (fst kv) ++ names_of (snd kv)) items
  | EList items => flat_map names_of items
  | ESubscript e i => names_of e ++ names_of i
  | EBinOp _ l r => names_of l ++ names_of r
  end.

Definition reads_target (t : target) : list string :=
  match t with
  | TName _ | TPair _ _ => []
  | TSubscript o i => names_of o ++ names_of i
  end.

Definition binds_target (t : target) : list string :=
  match t with
  | TName x => [x]
  | TPair x y => [x; y]
  | TSubscript _ _ => []
  end.

(** The names a plain statement reads and the names it binds. *)
Definition reads (s : stmt) : list string :=
  match s with
  | SAssign t e => names_of e ++ reads_target t
  | SExpr e => names_of e
  | _ => []
  end.

Definition binds (s : stmt) : list string :=
  match s with
  | SImport m None => [Sem.root m]
  | SImport _ (Some a) => [a]
  | SFromImport _ n => [n]
  | SAssign t _ => binds_target t
  | _ => []
  end.

(** The builtins the notebooks read. *)
Definition builtins : list string := ["len"; "bool"; "float"].

Definition known (bound : list string) (x : string) : bool :=
  CI.mem x bound || CI.mem x builtins.

(** The names bound after [src], when every statement of [src] is plain
    and reads only names bound before it or builtins. *)
Fixpoint scope (bound : list string) (src : list stmt) : option (list string) :=
  match src with
  | [] => Some bound
  | s :: rest =>
      if Analysis.plain s && forallb (known bound) (reads s)
      then scope (binds s ++ bound) rest
      else None
  end.

Definition well_scoped (nb : notebook) : bool :=
  match scope [] (statements nb) with
  | Some _ => true
  | None => false
  end.

Section Safety.

Context {V W X : Type}.

(** Every name of [B] is bound in the namespace of [s]. *)
Definition covers (B : list string) (s : @Sem.state V W) : Prop :=
  forall x, In x B -> Sem.find x (Sem.names s) <> None.

(** A name lookup that raised: a [NameError]. *)
Definition name_error (ev : Sem.event X) : Prop :=
  match ev with
  | Sem.Ev (Sem.OpName _) (Some _) => True
  | _ => False
  end.

(** Started with the names [B] bound, [m] raises no [NameError] and, when
    it ends normally, leaves the names [B'] bound. *)
Definition safe {A} (B B' : list string) (m : @Sem.M V W X A) : Prop :=
  forall s,
    covers B s ->
    Forall (fun ev => ~ name_error ev) (fst (m s)) /\
    match snd (m s) with
    | Sem.Ok _ s' => covers B' s'
    | _ => True
    end.

End Safety.

(** A cell that reads a name no cell has bound. *)
Definition reads_unbound : notebook :=
  [ code None [ SExpr (method (EName "psi1_s") "entanglement_entropy" []) ] [] ].

End Scope.

(* ================================================================== *)
(** * Theorems *)

(** ** Failures pass through straight-line code *)

Module SemFacts.

Import Sem.
#[local] Open Scope list_scope.

Create HintDb propagate.

Section Propagation.

Context {V W X : Type}.
Variable rt : runtime V W X.

Lemma propagating_ret {A} (a : A) : propagating (@ret V W X A a).
Proof. intros s. simpl. constructor. Qed.

Lemma propagating_bind {A B} (m : @M V W X A) (k : A -> @M V W X B) :
  propagating m -> (forall a, propagating (k a)) -> propagating (bind m k).
Proof.
  intros Hm Hk s. unfold bind.
  specialize (Hm s). destruct (m s) as [t1 r].
  destruct r as [a s' | x s' | ]; simpl in *; try assumption.
  specialize (Hk a s'). destruct (k a s') as [t2 r'].
  destruct r' as [b s'' | x s'' | ]; simpl in *.
  - apply Forall_app; split; assumption.
  - destruct Hk as (tr0 & o & -> & Hok).
    exists (t1 ++ tr0), o. split.
    + now rewrite app_assoc.
    + apply Forall_app; split; assumption.
  - assumption.
Qed.

Lemma propagating_op {A} (o : opname) (f : W -> X + A * W) :
  propagating (@op V W X A o f).
Proof.
  intros s. unfold op. destruct (f (world s)) as [x | [a w']]; simpl.
  - exists [], o. split; [reflexivity | constructor].
  - repeat constructor.
Qed.

Lemma propagating_lookup (x : string) : propagating (lookup rt x).
Proof.
  intros s. unfold lookup.
  destruct (find x (names s)) as [v | ]; simpl; [repeat constructor | ].
  destruct (rt_builtin rt x) as [v | ]; simpl; [repeat constructor | ].
  exists [], (OpName x). split; [reflexivity | constructor].
Qed.

Lemma propagating_assign (x : string) (v : V) :
  propagating (@assign V W X x v).
Proof. intros s. simpl. constructor. Qed.

Lemma propagating_mapM {A B} (f : A -> @M V W X B) (l : list A) :
  Forall (fun a => propagating (f a)) l -> propagating (mapM f l).
Proof.
  induction 1 as [ | a l Ha _ IH]; simpl.
  - apply propagating_ret.
  - apply propagating_bind; [assumption | intros b].
    apply propagating_bind; [assumption | intros bs].
    apply propagating_ret.
Qed.

Lemma propagating_forM_ {A} (f : A -> @M V W X unit) (l : list A) :
  Forall (fun a => propagating (f a)) l -> propagating (forM_ f l).
Proof.
  induction 1 as [ | a l Ha _ IH]; simpl.
  - apply propagating_ret.
  - apply propagating_bind; [assumption | intros _; assumption].
Qed.

Hint Resolve propagating_ret propagating_op propagating_lookup
  propagating_assign : propagate.

Ltac step :=
  first [ apply propagating_bind; [ | intro ]
        | apply propagating_mapM
        | solve [auto with propagate] ].

(** Evaluating an expression never hides a failure. *)
Lemma propagating_eval (e : expr) : propagating (eval rt e).
Proof.
  induction e using Py.expr_nested_ind; simpl; repeat step; auto.
  - eapply Forall_impl; [ | eassumption ].
    intros [key arg] Harg; simpl in *. repeat step; auto.
  - eapply Forall_impl; [ | eassumption ].
    intros [key val] [Hkey Hval]; simpl in *. repeat step; auto.
Qed.

Lemma propagating_store (t : target) (v : V) : propagating (store rt t v).
Proof.
  destruct t; simpl; repeat step; auto using propagating_eval.
Qed.

(** Nor does a plain statement. *)
Lemma propagating_exec (s : stmt) :
  Analysis.plain s = true -> propagating (exec rt s).
Proof.
  destruct s as [m [a | ] | m n | t e | e | | | | | | | | | ];
    simpl; try discriminate; intros _;
    repeat step; auto using propagating_eval, propagating_store.
Qed.

Lemma propagating_exec_cell (src : list stmt) :
  forallb Analysis.plain src = true -> propagating (exec_cell rt src).
Proof.
  induction src as [ | s rest IH]; intros Hsrc.
  - apply propagating_ret.
  - simpl in Hsrc. apply andb_prop in Hsrc as [Hs Hrest].
    specialize (IH Hrest).
    assert (Hseq : propagating (bind (exec rt s) (fun _ => exec_cell rt rest))).
    { apply propagating_bind; [now apply propagating_exec | intros _; exact IH]. }
    destruct s; try exact Hseq.
    destruct rest; [ | exact Hseq].
    simpl. repeat step; auto using propagating_eval.
Qed.

Lemma plain_cells (cs : list code_cell) :
  forallb Analysis.plain (flat_map source cs) = true ->
  Forall (fun src => forallb Analysis.plain src = true) (map source cs).
Proof.
  induction cs as [ | c cs IH]; simpl; intros H; constructor.
  - rewrite forallb_app in H. now apply andb_prop in H.
  - apply IH. rewrite forallb_app in H. now apply andb_prop in H.
Qed.

(** A notebook of plain statements is faithful to the failures of the
    runtime, whatever the runtime does. *)
Lemma plain_notebook_faithful (nb : notebook) (w : W) :
  forallb Analysis.plain (statements nb) = true ->
  faithful (run rt nb w).
Proof.
  intros H. unfold run. apply propagating_forM_.
  eapply Forall_impl; [ | apply plain_cells; exact H ].
  intros src Hsrc. now apply propagating_exec_cell.
Qed.

(** What faithfulness gives: an exception raised by any operation of the
    run is the exception the run ends with. *)
Lemma faithful_failure {A} (out : list (event X) * @res V W X A) o x :
  faithful out -> In (Ev o (Some x)) (fst out) ->
  exists s, snd out = Err x s.
Proof.
  destruct out as [tr [a s | x' s | ]]; simpl; intros Hf Hin.
  - rewrite Forall_forall in Hf. destruct (Hf _ Hin).
  - destruct Hf as (tr0 & o' & -> & Hok).
    apply in_app_or in Hin as [Hin | [Heq | []]].
    + rewrite Forall_forall in Hok. destruct (Hok _ Hin).
    + injection Heq as _ ->. now exists s.
  - destruct Hf.
Qed.

End Propagation.

End SemFacts.

(* ================================================================== *)
(** ** The runtime at work *)

(** With a [test_sanity] that raises, the segment notebook ends with that
    exception, raised by the last operation of the run. *)
Example sanity_failure_ends_the_run :
  let out := Sem.run (Toy.toy ["test_sanity"]) segment_notebook 0 in
  Toy.ending out = Some "ValueError" /\
  last (fst out) (Sem.Ev Sem.OpRaise None)
  = Sem.Ev Sem.OpCall (Some "ValueError").
Proof. vm_compute. split; reflexivity. Qed.

(** When nothing raises, both notebooks run to the end. *)
Example notebooks_run_to_the_end :
  map (fun nb => Toy.ending (Sem.run (Toy.toy []) nb 0)) repository_notebooks
  = [None; None].
Proof. vm_compute. reflexivity. Qed.

(** A handler would swallow the same failure: the semantics tells code
    with a handler from code without one. *)
Example handler_swallows_failure :
  Toy.ending (Sem.run (Toy.toy ["test_sanity"]) Toy.guarded_check 0) = None /\
  Toy.ending (Sem.run (Toy.toy ["test_sanity"]) Toy.unguarded_check 0)
  = Some "ValueError".
Proof. vm_compute. split; reflexivity. Qed.

(** Failures do not pass through the guarded check. *)
Lemma guarded_check_hides_failure :
  ~ Sem.failures_pass_through Toy.guarded_check.
Proof.
  intros H. specialize (H _ _ _ (Toy.toy ["test_sanity"]) 0).
  vm_compute in H. inversion H as [ | ev tr Hev Htr]; subst.
  repeat match goal with
         | Hf : Forall _ (_ :: _) |- _ => inversion Hf; subst; clear Hf
         end.
  assumption.
Qed.

(* ================================================================== *)
(** ** The claims *)

Lemma Forall_true_forallb {A} (f : A -> bool) (l : list A) :
  Forall (fun a => f a = true) l -> forallb f l = true.
Proof.
  intros H. apply forallb_forall. now apply Forall_forall.
Qed.

(** *** C1: the segment workflow *)

(** C1, as stated, fails: not every step of the segment workflow is a call
    into the library or the construction of a parameter dictionary.  The
    left-boundary projection cell builds its mask with numpy and an item
    assignment; the step [proj[np.argmax(S)] = True] is neither. *)
Lemma workflow_not_entirely_library_calls :
  let step :=
    (SAssign (TSubscript (EName "proj")
                (method (EName "np") "argmax" [EName "S"]))
             (EBool true),
     Analysis.KItemAssign) in
  In step Analysis.segment_workflow /\
  Analysis.library_call_or_parameters (snd step) = false /\
  ~ Analysis.entirely_library_calls Analysis.segment_workflow.
Proof.
  cbv zeta. split; [ | split ].
  - apply (nth_error_In _ 23). reflexivity.
  - reflexivity.
  - unfold Analysis.entirely_library_calls. intros H.
    apply Forall_true_forallb in H. vm_compute in H. discriminate H.
Qed.

(** C1, amended: the segment workflow has 45 steps, all of them plain
    statements (no function, class, loop, branch, context manager, [try],
    [raise] or [assert]).  37 are calls whose callee comes from TeNPy or
    bind a parameter dictionary; the other 8 are glue between the calls:
    three reads, one literal, the numpy call and the item assignment that
    build the projection mask, one array subtraction, and the item
    assignment that resets [age_LP]. *)
Theorem workflow_is_library_calls_and_glue :
  length Analysis.segment_workflow = 45 /\
  forallb (fun sk => Analysis.plain (fst sk)) Analysis.segment_workflow = true /\
  Analysis.count Analysis.library_call_or_parameters Analysis.segment_workflow
  = 37 /\
  Analysis.count Analysis.glue Analysis.segment_workflow = 8 /\
  filter (fun sk => negb (Analysis.library_call_or_parameters (snd sk)))
         Analysis.segment_workflow
  = [ (SExpr (EName "resume_psi0_i"), Analysis.KRead);
      (SAssign (TName "enlarge") (ENum 10), Analysis.KLiteral);
      (SAssign (TPair "first" "last")
         (EAttr (EAttr (EName "M_s") "lat") "segment_first_last"),
       Analysis.KRead);
      (SExpr (EBinOp Sub (entanglement_entropy "psi1_s")
                (method (EName "np") "mean" [entanglement_entropy "psi0_i"])),
       Analysis.KArithmetic);
      (SAssign (TName "proj")
         (method (EName "np") "zeros"
            [call (EName "len") [EName "S"]; EName "bool"]),
       Analysis.KNumpyCall);
      (SAssign (TSubscript (EName "proj")
                  (method (EName "np") "argmax" [EName "S"]))
               (EBool true),
       Analysis.KItemAssign);
      (SAssign (TSubscript (EName "init_env_data_halfinf") (EStr "age_LP"))
               (ENum 0),
       Analysis.KItemAssign);
      (SExpr (EAttr (EName "psi_halfinf") "L"), Analysis.KRead) ].
Proof. vm_compute. repeat split; reflexivity. Qed.

(** *** C2: what the notebooks do *)



(** *** C3: what the CI workflow runs *)

Lemma mem_In (s : string) (l : list string) : CI.mem s l = true <-> In s l.
Proof.
  unfold CI.mem. rewrite existsb_exists. split.
  - intros (x & Hin & Heq). apply String.eqb_eq in Heq. now subst.
  - intros Hin. exists s. split; [assumption | apply String.eqb_refl].
Qed.

Lemma pytest_runs_unless_ignored (file : string) :
  CI.pytest_runs CI.pytest_command file
  = CI.is_notebook file
    && negb (CI.mem file ["12_dmrg_mixer.ipynb";
                          "14_segment_half_infinite.ipynb"]).
Proof. reflexivity. Qed.

Lemma executes_test_notebooks (ev : CI.event) (file : string) :
  CI.executes CI.test_notebooks ev file
  = CI.triggered CI.test_notebooks ev
    && (CI.holds (CI.DraftEquals false) ev
        && CI.pytest_runs CI.pytest_command file).
Proof.
  unfold CI.executes, CI.job_runs. simpl.
  now rewrite !orb_false_r.
Qed.

(** C3, as stated, fails: notebook 12 is in the repository and the
    workflow, started by a push to main, does not execute it: its pytest
    command ignores it.  Nor is any notebook executed for a pull request
    that is still a draft. *)
Lemma ignored_notebook_not_executed :
  CI.is_notebook "12_dmrg_mixer.ipynb" = true /\
  CI.executes CI.test_notebooks (CI.Push "main") "12_dmrg_mixer.ipynb"
  = false /\
  CI.executes CI.test_notebooks (CI.PullRequest "opened" true)
              "_template.ipynb" = false /\
  ~ CI.runs_every_notebook CI.test_notebooks.
Proof.
  repeat split; try reflexivity.
  intros H.
  destruct (H "12_dmrg_mixer.ipynb" eq_refl eq_refl) as [Hpush _].
  vm_compute in Hpush. discriminate Hpush.
Qed.

(** C3, amended: the workflow executes a notebook of the repository root
    under [pytest --nbmake] exactly when the notebook is neither
    [12_dmrg_mixer.ipynb] nor [14_segment_half_infinite.ipynb] and the
    event is a push to [main] or a pull request that is not a draft and
    was opened, synchronized, reopened or marked ready for review. *)
Theorem executes_unless_ignored_or_draft (ev : CI.event) (file : string) :
  CI.is_notebook file = true ->
  CI.in_root file = true ->
  (CI.executes CI.test_notebooks ev file = true <->
   ~ In file ["12_dmrg_mixer.ipynb"; "14_segment_half_infinite.ipynb"] /\
   (ev = CI.Push "main" \/
    exists activity,
      In activity ["opened"; "synchronize"; "reopened"; "ready_for_review"] /\
      ev = CI.PullRequest activity false)).
Proof.
  intros Hnb _.
  rewrite executes_test_notebooks, pytest_runs_unless_ignored, Hnb.
  rewrite !andb_true_iff, negb_true_iff, <- not_true_iff_false, mem_In.
  split.
  - intros (Htrig & Hdraft & _ & Hign). split; [exact Hign | ].
    destruct ev as [branch | activity draft].
    + left. change (CI.mem branch ["main"] = true) in Htrig.
      apply mem_In in Htrig. destruct Htrig as [<- | []]. reflexivity.
    + right. exists activity.
      change (CI.mem activity
                ["opened"; "synchronize"; "reopened"; "ready_for_review"]
              = true) in Htrig.
      split; [now apply mem_In | ].
      destruct draft; [discriminate Hdraft | reflexivity].
  - intros (Hign & [-> | (activity & Hact & ->)]).
    + repeat split; assumption.
    + repeat split; try assumption.
      change (CI.mem activity
                ["opened"; "synchronize"; "reopened"; "ready_for_review"]
              = true).
      now apply mem_In.
Qed.

(** C3, witness: the template notebook is executed on a push to main. *)
Lemma template_executed_on_push :
  CI.is_notebook "_template.ipynb" = true /\
  CI.in_root "_template.ipynb" = true /\
  CI.executes CI.test_notebooks (CI.Push "main") "_template.ipynb" = true.
Proof.
  split; [reflexivity | ]. split; [reflexivity | ].
  apply (proj2 (executes_unless_ignored_or_draft
                  (CI.Push "main") "_template.ipynb" eq_refl eq_refl)).
  split.
  - simpl. intros [H | [H | []]]; discriminate H.
  - left. reflexivity.
Defined.

(** *** C5: failures *)

(** C5: no notebook contains [try], [raise] or [assert], nor any branch:
    every statement is an import, an assignment or an expression.  On
    every runtime an exception raised by an operation of a notebook ends
    the run of that notebook, unchanged: the run ends normally only when
    every operation succeeded, and ends with exception [x] only when its
    last operation raised [x] and all the operations before it
    succeeded. *)
Theorem notebooks_handle_no_failure :
  Forall (fun nb => Analysis.no_failure_logic nb = true /\
                    forallb Analysis.plain (statements nb) = true /\
                    Sem.failures_pass_through nb)
         repository_notebooks.
Proof.
  assert (Hplain : Forall (fun nb => forallb Analysis.plain (statements nb) = true)
                          repository_notebooks).
  { repeat constructor. }
  eapply Forall_impl; [ | exact Hplain ].
  intros nb Hnb. split; [ | split; [ exact Hnb | ] ].
  - unfold Analysis.no_failure_logic.
    apply forallb_forall. intros s Hs.
    rewrite forallb_forall in Hnb. specialize (Hnb s Hs).
    destruct s; simpl in *; try discriminate; reflexivity.
  - intros V W X rt w. now apply SemFacts.plain_notebook_faithful.
Qed.

(** *** The lengths in the captured run *)

(** With [enlarge=10] and a unit cell of 2 sites, 10 * 2 = 20.  In the
    captured run [psi_halfinf.L] displays 20, the expectation-value arrays
    displayed for [psi_halfinf] and [psi_defect] have 20 entries, and the
    entanglement-entropy arrays displayed for [psi1_s], [psi_halfinf] and
    [psi_defect] have 21; the array of the infinite state [psi0_i] has
    2. *)
Example captured_run_has_20_sites_and_21_bonds :
  Analysis.unit_cell segment_notebook = [2%Z] /\
  Analysis.enlarge segment_notebook = [10%Z] /\
  Analysis.expected_sites segment_notebook = [20] /\
  Analysis.displayed_lengths segment_notebook = [("psi_halfinf", Some 20)] /\
  Analysis.displayed_arrays segment_notebook "expectation_value"
  = [("psi_halfinf", 20); ("psi_defect", 20)] /\
  Analysis.displayed_arrays segment_notebook "entanglement_entropy"
  = [("psi0_i", 2); ("psi1_s", 20 + 1); ("psi_halfinf", 20 + 1);
     ("psi_defect", 20 + 1)].
Proof. vm_compute. repeat split; reflexivity. Qed.

(* ================================================================== *)
(** ** The computations of the cells *)

(** *** The projection mask *)

Module ProjectionFacts.

Import QArith.
Import Projection.
#[local] Close Scope Q_scope.
#[local] Open Scope list_scope.

(** The scan returns the first index of the largest value. *)
Lemma argmax_from_spec (l pre : list Q) (best : Q) (best_at : nat) :
  best_at < length pre ->
  nth best_at pre 0%Q = best ->
  (forall j, j < length pre -> (nth j pre 0 <= best)%Q) ->
  (forall j, j < best_at -> (nth j pre 0 < best)%Q) ->
  let r := argmax_from best best_at (length pre) l in
  r < length (pre ++ l) /\
  (forall j, j < length (pre ++ l) ->
             (nth j (pre ++ l) 0 <= nth r (pre ++ l) 0)%Q) /\
  (forall j, j < r -> (nth j (pre ++ l) 0 < nth r (pre ++ l) 0)%Q).
Proof.
  revert pre best best_at.
  induction l as [ | x l IH]; intros pre best best_at Hat Hbest Hle Hlt; simpl.
  - rewrite app_nil_r, Hbest. repeat split; assumption.
  - replace (pre ++ x :: l) with ((pre ++ [x]) ++ l)
      by (rewrite <- app_assoc; reflexivity).
    replace (S (length pre)) with (length (pre ++ [x]))
      by (rewrite length_app; simpl; lia).
    destruct (Qlt_le_dec best x) as [Hbx | Hxb].
    + apply IH.
      * rewrite length_app; simpl; lia.
      * rewrite app_nth2 by lia. now rewrite Nat.sub_diag.
      * intros j Hj. rewrite length_app in Hj; simpl in Hj.
        destruct (Nat.eq_dec j (length pre)) as [-> | Hne].
        -- rewrite app_nth2 by lia. rewrite Nat.sub_diag. simpl. apply Qle_refl.
        -- rewrite app_nth1 by lia. apply Qlt_le_weak.
           eapply Qle_lt_trans; [apply Hle; lia | exact Hbx].
      * intros j Hj. rewrite app_nth1 by lia.
        eapply Qle_lt_trans; [apply Hle; lia | exact Hbx].
    + apply IH.
      * rewrite length_app; simpl; lia.
      * rewrite app_nth1 by lia. exact Hbest.
      * intros j Hj. rewrite length_app in Hj; simpl in Hj.
        destruct (Nat.eq_dec j (length pre)) as [-> | Hne].
        -- rewrite app_nth2 by lia. rewrite Nat.sub_diag. simpl. exact Hxb.
        -- rewrite app_nth1 by lia. apply Hle. lia.
      * intros j Hj. rewrite app_nth1 by lia. now apply Hlt.
Qed.

Lemma argmax_spec (x : Q) (l : list Q) :
  let r := argmax_from x 0 1 l in
  r < length (x :: l) /\
  (forall j, j < length (x :: l) -> (nth j (x :: l) 0 <= nth r (x :: l) 0)%Q) /\
  (forall j, j < r -> (nth j (x :: l) 0 < nth r (x :: l) 0)%Q).
Proof.
  apply (argmax_from_spec l [x] x 0); simpl.
  - lia.
  - reflexivity.
  - intros j Hj. replace j with 0 by lia. apply Qle_refl.
  - intros j Hj. lia.
Qed.

(** Setting one entry of an all-False array. *)
Lemma setitem_zeros (n i : nat) :
  i < n ->
  setitem (zeros n) i true
  = Some (repeat false i ++ true :: repeat false (n - S i)).
Proof.
  intros Hi. unfold setitem, zeros. rewrite repeat_length.
  apply Nat.ltb_lt in Hi as Hb. rewrite Hb. f_equal.
  apply Nat.ltb_lt in Hb.
  replace n with (i + S (n - S i)) at 1 2 by lia.
  rewrite repeat_app.
  rewrite firstn_app, firstn_all2 by (rewrite repeat_length; lia).
  rewrite repeat_length, Nat.sub_diag. simpl firstn. rewrite app_nil_r.
  f_equal.
  replace (S i) with (length (repeat false i) + 1)
    by (rewrite repeat_length; lia).
  rewrite skipn_app, skipn_all2 by (rewrite repeat_length; lia).
  rewrite repeat_length.
  replace (i + 1 - i) with 1 by lia. reflexivity.
Qed.

Lemma nth_one_hot (i k j : nat) :
  nth j (repeat false i ++ true :: repeat false k) false = true <-> j = i.
Proof.
  split.
  - intros H. destruct (Nat.lt_trichotomy j i) as [Hlt | [Heq | Hgt]];
      [ | assumption | ].
    + rewrite app_nth1 in H by (rewrite repeat_length; lia).
      rewrite nth_repeat in H. discriminate H.
    + rewrite app_nth2 in H by (rewrite repeat_length; lia).
      rewrite repeat_length in H.
      destruct (j - i) as [ | m] eqn:E; [lia | ].
      simpl in H. rewrite nth_repeat in H. discriminate H.
  - intros ->. rewrite app_nth2 by (rewrite repeat_length; lia).
    rewrite repeat_length, Nat.sub_diag. reflexivity.
Qed.

Lemma kept_zeros (n : nat) : kept (repeat false n) = 0.
Proof. induction n; simpl; auto. Qed.

Lemma kept_one_hot (i k : nat) :
  kept (repeat false i ++ true :: repeat false k) = 1.
Proof.
  unfold kept. rewrite count_occ_app. simpl.
  fold (kept (repeat false i)). fold (kept (repeat false k)).
  rewrite !kept_zeros. reflexivity.
Qed.

(** What the mask is, for values that are not empty. *)
Lemma proj_spec (x : Q) (l : list Q) :
  let S := x :: l in
  let i := argmax_from x 0 1 l in
  let mask := repeat false i ++ true :: repeat false (length S - Datatypes.S i) in
  argmax S = Some i /\
  proj S = Some mask /\
  length mask = length S /\
  i < length S /\
  (forall j, nth j mask false = true <-> j = i) /\
  kept mask = length (ones 1) /\
  (forall j, j < length S -> (nth j S 0 <= nth i S 0)%Q) /\
  (forall j, j < i -> (nth j S 0 < nth i S 0)%Q).
Proof.
  cbv zeta.
  destruct (argmax_spec x l) as (Hr & Hmax & Hfirst).
  set (r := argmax_from x 0 1 l) in *.
  split; [reflexivity | ].
  split.
  { unfold proj. cbn [argmax]. fold r. now apply setitem_zeros. }
  split.
  { rewrite length_app. cbn [length]. rewrite !repeat_length.
    cbn [length] in Hr. lia. }
  split; [exact Hr | ].
  split; [intros j; apply nth_one_hot | ].
  split; [apply kept_one_hot | ].
  split; assumption.
Qed.


(** X1: for Schmidt values [S] that are not empty the mask is computed, is
    as long as [S], and is True at exactly one index: the first index at
    which [S] takes its largest value.  It keeps one index, as many as
    [np.ones(1, float)] has entries. *)
Theorem proj_keeps_first_maximum (S : list Q) :
  S <> [] ->
  exists i mask,
    argmax S = Some i /\
    proj S = Some mask /\
    length mask = length S /\
    i < length S /\
    (forall j, nth j mask false = true <-> j = i) /\
    kept mask = length (ones 1) /\
    (forall j, j < length S ->
               (nth j S 0 <= nth i S 0)%Q) /\
    (forall j, j < i -> (nth j S 0 < nth i S 0)%Q).
Proof.
  destruct S as [ | x l]; [congruence | intros _].
  eexists. eexists. exact (proj_spec x l).
Qed.

(** X1, witness: two equal largest values, 3/4 and 6/8; the first one is
    kept. *)
Lemma proj_keeps_first_maximum_witness :
  sample <> [] /\
  exists i mask,
    argmax sample = Some i /\
    proj sample = Some mask /\
    length mask = length sample /\
    i < length sample /\
    (forall j, nth j mask false = true <-> j = i) /\
    kept mask = length (ones 1) /\
    (forall j, j < length sample -> (nth j sample 0 <= nth i sample 0)%Q) /\
    (forall j, j < i -> (nth j sample 0 < nth i sample 0)%Q).
Proof.
  split; [discriminate | ].
  apply (proj_keeps_first_maximum sample). discriminate.
Defined.

(** X2: the mask computation raises exactly when [S] is empty; the item
    assignment never falls outside the array. *)
Theorem proj_raises_only_on_empty (S : list Q) :
  proj S = None <-> S = [].
Proof.
  split.
  - intros Hnone. destruct S as [ | x l]; [reflexivity | ].
    destruct (proj_spec x l) as (_ & Hp & _).
    rewrite Hp in Hnone. discriminate Hnone.
  - intros ->. reflexivity.
Qed.

End ProjectionFacts.

(** *** The parameters of the defect model *)

Module DefectFacts.

Import Defect.
#[local] Open Scope list_scope.

Lemma list_mul_singleton {A} (x : A) (n : Z) :
  list_mul [x] n = repeat x (Z.to_nat n).
Proof.
  unfold list_mul. induction (Z.to_nat n) as [ | k IH]; simpl.
  - reflexivity.
  - now rewrite IH.
Qed.

Lemma fields_eq (g : pyval) (L : Z) :
  fields g L = PFloat "0." :: repeat g (Z.to_nat (L - 1)).
Proof. unfold fields. now rewrite list_mul_singleton. Qed.

Lemma length_fields (g : pyval) (L : Z) :
  length (fields g L) = Z.to_nat (Z.max 1 L).
Proof. rewrite fields_eq. simpl. rewrite repeat_length. lia. Qed.

(** X3: when [model_params] has a ['g'], the defect parameters are built;
    their ['L'] is [L] and their ['g'] is a list that starts with [0.] and
    continues with the bulk value.  The list has [L] entries, one per
    site, exactly when [L] is at least 1: for [L] zero or negative it
    still has the one entry [0.]. *)
Theorem defect_fields_per_site (model_params : dict) (g : pyval) (L : Z) :
  getitem "g" model_params = Some g ->
  exists d,
    model_params_defect model_params L = Some d /\
    getitem "L" d = Some (PInt L) /\
    getitem "g" d = Some (PList (fields g L)) /\
    length (fields g L) = Z.to_nat (Z.max 1 L) /\
    (Z.of_nat (length (fields g L)) = L <-> (1 <= L)%Z) /\
    nth_error (fields g L) 0 = Some (PFloat "0.") /\
    (forall i, 0 < i < length (fields g L) ->
               nth_error (fields g L) i = Some g).
Proof.
  intros Hg. unfold model_params_defect. rewrite Hg.
  eexists. split; [reflexivity | ].
  split; [reflexivity | ]. split; [reflexivity | ].
  split; [apply length_fields | ].
  split; [rewrite length_fields; lia | ].
  rewrite fields_eq. split; [reflexivity | ].
  intros i [Hpos Hlt]. simpl in Hlt. rewrite repeat_length in Hlt.
  destruct i as [ | i]; [lia | ]. simpl.
  rewrite nth_error_repeat by lia. reflexivity.
Qed.

(** X3, witness: the parameters of cell 4 and the 20 sites of the
    segment. *)
Lemma defect_fields_per_site_witness :
  getitem "g" model_params = Some (PFloat "1.5") /\
  exists d,
    model_params_defect model_params 20 = Some d /\
    getitem "L" d = Some (PInt 20) /\
    getitem "g" d = Some (PList (fields (PFloat "1.5") 20)) /\
    length (fields (PFloat "1.5") 20) = Z.to_nat (Z.max 1 20) /\
    (Z.of_nat (length (fields (PFloat "1.5") 20)) = 20%Z <-> (1 <= 20)%Z) /\
    nth_error (fields (PFloat "1.5") 20) 0 = Some (PFloat "0.") /\
    (forall i, 0 < i < length (fields (PFloat "1.5") 20) ->
               nth_error (fields (PFloat "1.5") 20) i = Some (PFloat "1.5")).
Proof.
  split; [reflexivity | ].
  apply (defect_fields_per_site model_params (PFloat "1.5") 20).
  reflexivity.
Defined.

End DefectFacts.

(** *** The environment data of the half-infinite run *)

Module EnvDataFacts.

Import EnvData.
#[local] Open Scope list_scope.

Lemma getitem_set_same (key : string) (v : value) (d : dict) :
  getitem key (set key v d) = Some v.
Proof.
  induction d as [ | [k v'] d IH]; simpl.
  - now rewrite String.eqb_refl.
  - destruct (String.eqb key k) eqn:E; simpl; rewrite E; [reflexivity | exact IH].
Qed.

Lemma getitem_set_other (key key' : string) (v : value) (d : dict) :
  key <> key' -> getitem key (set key' v d) = getitem key d.
Proof.
  intros Hne. induction d as [ | [k v'] d IH]; simpl.
  - apply String.eqb_neq in Hne. now rewrite Hne.
  - destruct (String.eqb key' k) eqn:E; simpl.
    + apply String.eqb_eq in E. subst k.
      apply String.eqb_neq in Hne. now rewrite Hne.
    + destruct (String.eqb key k); [reflexivity | exact IH].
Qed.

Lemma update_last (h : heap) (d d' : dict) :
  update (length h) d' (h ++ [d]) = h ++ [d'].
Proof. induction h as [ | x h IH]; simpl; [reflexivity | now rewrite IH]. Qed.

Lemma nth_error_last (h : heap) (d : dict) :
  nth_error (h ++ [d]) (length h) = Some d.
Proof.
  rewrite nth_error_app2 by lia. now rewrite Nat.sub_diag.
Qed.

(** The three statements, step by step. *)
Lemma init_env_data_halfinf_eq (h : heap) (a : nat) (d : dict) (lp : value) :
  nth_error h a = Some d ->
  init_env_data_halfinf h a lp
  = Some (h ++ [set "age_LP" (Int 0) (set "init_LP" lp d)], length h).
Proof.
  intros Ha. unfold init_env_data_halfinf, copy, setitem. rewrite Ha.
  rewrite nth_error_last, update_last, nth_error_last, update_last.
  reflexivity.
Qed.

(** X4: the patch for the half-infinite run is made on a copy.  Every
    dictionary that existed before (the environment data of the first
    segment run, and [resume_psi1_s] that refers to it) is left as it was;
    the new dictionary has the new [init_LP], [age_LP] 0, and under every
    other key the very value of the original. *)
Theorem halfinf_patch_leaves_original
    (h : heap) (a : nat) (d : dict) (init_LP : value) :
  nth_error h a = Some d ->
  exists h' d',
    init_env_data_halfinf h a init_LP = Some (h', length h) /\
    length h' = S (length h) /\
    (forall b, b < length h -> nth_error h' b = nth_error h b) /\
    nth_error h' (length h) = Some d' /\
    getitem "init_LP" d' = Some init_LP /\
    getitem "age_LP" d' = Some (Int 0) /\
    (forall key, key <> "init_LP" -> key <> "age_LP" ->
                 getitem key d' = getitem key d).
Proof.
  intros Ha.
  exists (h ++ [set "age_LP" (Int 0) (set "init_LP" init_LP d)]),
         (set "age_LP" (Int 0) (set "init_LP" init_LP d)).
  split; [now apply init_env_data_halfinf_eq | ].
  split; [rewrite length_app; simpl; lia | ].
  split; [intros b Hb; now rewrite nth_error_app1 | ].
  split; [apply nth_error_last | ].
  split.
  { rewrite getitem_set_other by discriminate. apply getitem_set_same. }
  split; [apply getitem_set_same | ].
  intros key H1 H2. now rewrite !getitem_set_other.
Qed.

(** X4, witness: the heap after cell 8. *)
Lemma halfinf_patch_leaves_original_witness :
  exists h' d',
    init_env_data_halfinf after_cell_8 0 (Array 7)
    = Some (h', length after_cell_8) /\
    length h' = S (length after_cell_8) /\
    (forall b, b < length after_cell_8 ->
               nth_error h' b = nth_error after_cell_8 b) /\
    nth_error h' (length after_cell_8) = Some d' /\
    getitem "init_LP" d' = Some (Array 7) /\
    getitem "age_LP" d' = Some (Int 0) /\
    (forall key, key <> "init_LP" -> key <> "age_LP" ->
                 getitem key d'
                 = getitem key [ ("init_LP", Array 0); ("init_RP", Array 1);
                                 ("age_LP", Int 124); ("age_RP", Int 124) ]).
Proof.
  apply (halfinf_patch_leaves_original after_cell_8 0 _ (Array 7)).
  reflexivity.
Defined.

(** Without the [.copy()] the same two assignments change the dictionary
    the first segment run was given. *)
Example patch_in_place_changes_original :
  exists h',
    patched_in_place after_cell_8 0 (Array 7) = Some (h', 0) /\
    nth_error h' 0 <> nth_error after_cell_8 0.
Proof. eexists. split; [reflexivity | discriminate]. Qed.

End EnvDataFacts.

(** *** Names are bound before they are read *)

Module ScopeFacts.

Import Sem.
Import Scope.
#[local] Open Scope list_scope.

Lemma forallb_flat_map {A} (p : string -> bool) (f : A -> list string)
    (l : list A) :
  forallb p (flat_map f l) = true ->
  Forall (fun a => forallb p (f a) = true) l.
Proof.
  induction l as [ | a l IH]; simpl; intros H; constructor.
  - rewrite forallb_app in H. now apply andb_prop in H.
  - apply IH. rewrite forallb_app in H. now apply andb_prop in H.
Qed.

Lemma scope_app (l1 l2 : list stmt) (B : list string) :
  scope B (l1 ++ l2)
  = match scope B l1 with
    | Some B1 => scope B1 l2
    | None => None
    end.
Proof.
  revert B. induction l1 as [ | s l1 IH]; intros B; simpl.
  - reflexivity.
  - destruct (Analysis.plain s && forallb (known B) (reads s));
      [apply IH | reflexivity].
Qed.

Section NameSafety.

Context {V W X : Type}.
Variable rt : runtime V W X.
Hypothesis builtins_present :
  forall x, In x builtins -> rt_builtin rt x <> None.

Lemma safe_ret {A} (B : list string) (a : A) : safe B B (@ret V W X A a).
Proof. intros s Hc. simpl. split; [constructor | assumption]. Qed.

Lemma safe_bind {A C} (B B1 B2 : list string)
    (m : @M V W X A) (k : A -> @M V W X C) :
  safe B B1 m -> (forall a, safe B1 B2 (k a)) -> safe B B2 (bind m k).
Proof.
  intros Hm Hk s Hc. unfold bind.
  specialize (Hm s Hc). destruct (m s) as [t1 r]. simpl in Hm.
  destruct Hm as [Hq Hr].
  destruct r as [a s' | x s' | ]; simpl; [ | split; auto | split; auto].
  specialize (Hk a s' Hr). destruct (k a s') as [t2 r']. simpl in *.
  destruct Hk as [Hq' Hr']. split; [ | exact Hr'].
  apply Forall_app. split; assumption.
Qed.

Lemma safe_weaken {A} (B B1 B2 : list string) (m : @M V W X A) :
  safe B B1 m -> incl B2 B1 -> safe B B2 m.
Proof.
  intros Hm Hincl s Hc. specialize (Hm s Hc). destruct Hm as [Hq Hr].
  split; [exact Hq | ].
  destruct (snd (m s)); auto.
  intros x Hx. apply Hr. now apply Hincl.
Qed.

Lemma safe_op {A} (B : list string) (o : opname) (f : W -> X + A * W) :
  (forall x, o <> OpName x) -> safe B B (@op V W X A o f).
Proof.
  intros Ho s Hc. unfold op.
  destruct (f (world s)) as [x | [a w']]; simpl.
  - split; [ | exact I]. constructor; [ | constructor].
    destruct o; simpl; auto. intros _. now apply (Ho x0).
  - split; [ | exact Hc]. constructor; [ | constructor].
    destruct o; simpl; auto.
Qed.

Lemma safe_lookup (B : list string) (x : string) :
  known B x = true -> safe B B (lookup rt x).
Proof.
  intros Hx s Hc. unfold lookup.
  destruct (find x (names s)) as [v | ] eqn:Ef; simpl.
  - split; [ | exact Hc]. constructor; [ | constructor]. simpl. auto.
  - unfold known in Hx. apply orb_prop in Hx as [Hb | Hb].
    + apply existsb_exists in Hb as (y & Hy & Heq).
      apply String.eqb_eq in Heq. subst y. destruct (Hc x Hy Ef).
    + apply existsb_exists in Hb as (y & Hy & Heq).
      apply String.eqb_eq in Heq. subst y.
      destruct (rt_builtin rt x) as [v | ] eqn:Eb; simpl.
      * split; [ | exact Hc]. constructor; [ | constructor]. simpl. auto.
      * destruct (builtins_present x Hy Eb).
Qed.

Lemma safe_assign (B : list string) (x : string) (v : V) :
  safe B (x :: B) (@assign V W X x v).
Proof.
  intros s Hc. simpl. split; [constructor | ].
  intros y [<- | Hy]; simpl.
  - rewrite String.eqb_refl. discriminate.
  - destruct (String.eqb y x); [discriminate | now apply Hc].
Qed.

Lemma safe_mapM {A C} (B : list string) (f : A -> @M V W X C) (l : list A) :
  Forall (fun a => safe B B (f a)) l -> safe B B (mapM f l).
Proof.
  induction 1 as [ | a l Ha _ IH]; simpl.
  - apply safe_ret.
  - apply safe_bind with (B1 := B); [assumption | intros b].
    apply safe_bind with (B1 := B); [assumption | intros bs].
    apply safe_ret.
Qed.

Ltac split_known :=
  repeat match goal with
         | H : forallb _ (_ ++ _) = true |- _ =>
             rewrite forallb_app in H; apply andb_prop in H; destruct H
         end.

Ltac chain B :=
  repeat first [ apply safe_ret
               | apply safe_op; discriminate
               | apply safe_bind with (B1 := B); [ | intro ] ].

(** Evaluating an expression whose names are known raises no
    [NameError]. *)
Lemma safe_eval (B : list string) (e : expr) :
  forallb (known B) (names_of e) = true -> safe B B (eval rt e).
Proof.
  induction e as [ x | n | t | s | b | e a IHe
                 | f args kwargs IHf IHargs IHkwargs
                 | items IHitems | items IHitems
                 | e i IHe IHi | b l r IHl IHr ]
    using Py.expr_nested_ind; simpl; intros Hk; split_known.
  - apply safe_lookup. simpl in Hk. now apply andb_prop in Hk.
  - apply safe_ret.
  - apply safe_ret.
  - apply safe_ret.
  - apply safe_ret.
  - chain B. now apply IHe.
  - apply safe_bind with (B1 := B); [now apply IHf | intros fv].
    apply safe_bind with (B1 := B); [ | intros avs].
    { apply safe_mapM. apply forallb_flat_map in H0.
      rewrite Forall_forall in *. intros a Ha. apply IHargs; auto. }
    apply safe_bind with (B1 := B); [ | intros kvs; chain B].
    apply safe_mapM. apply forallb_flat_map in H1.
    rewrite Forall_forall in *. intros ka Hka.
    chain B. apply IHkwargs; auto.
  - apply safe_bind with (B1 := B); [ | intros ivs; chain B].
    apply safe_mapM. apply forallb_flat_map in Hk.
    rewrite Forall_forall in *. intros kv Hkv.
    specialize (Hk kv Hkv). specialize (IHitems kv Hkv).
    rewrite forallb_app in Hk. apply andb_prop in Hk as [Hkey Hval].
    destruct IHitems as [IHkey IHval].
    apply safe_bind with (B1 := B); [now apply IHkey | intros key].
    apply safe_bind with (B1 := B); [now apply IHval | intros val].
    apply safe_ret.
  - apply safe_bind with (B1 := B); [ | intros vs; chain B].
    apply safe_mapM. apply forallb_flat_map in Hk.
    rewrite Forall_forall in *. intros a Ha. apply IHitems; auto.
  - apply safe_bind with (B1 := B); [now apply IHe | intros v].
    apply safe_bind with (B1 := B); [now apply IHi | intros iv].
    chain B.
  - apply safe_bind with (B1 := B); [now apply IHl | intros lv].
    apply safe_bind with (B1 := B); [now apply IHr | intros rv].
    chain B.
Qed.

Lemma safe_store (B : list string) (t : target) (v : V) :
  forallb (known B) (reads_target t) = true ->
  safe B (binds_target t ++ B) (store rt t v).
Proof.
  destruct t as [x | x y | o i]; simpl; intros Hk.
  - apply safe_assign.
  - apply safe_bind with (B1 := B); [apply safe_op; discriminate | intros p].
    apply safe_weaken with (B1 := y :: x :: B).
    + apply safe_bind with (B1 := x :: B); [apply safe_assign | intros _].
      apply safe_assign.
    + intros z [<- | [<- | Hz]]; simpl; auto.
  - split_known.
    apply safe_bind with (B1 := B); [now apply safe_eval | intros ov].
    apply safe_bind with (B1 := B); [now apply safe_eval | intros iv].
    apply safe_op. discriminate.
Qed.

Lemma safe_exec (B : list string) (s : stmt) :
  Analysis.plain s = true ->
  forallb (known B) (reads s) = true ->
  safe B (binds s ++ B) (exec rt s).
Proof.
  destruct s as [m [a | ] | m n | t e | e | | | | | | | | | ];
    simpl; try discriminate; intros _ Hk.
  - apply safe_bind with (B1 := B); [apply safe_op; discriminate | intros v].
    apply safe_assign.
  - apply safe_bind with (B1 := B); [apply safe_op; discriminate | intros v].
    apply safe_assign.
  - apply safe_bind with (B1 := B); [apply safe_op; discriminate | intros v].
    apply safe_assign.
  - split_known.
    apply safe_bind with (B1 := B); [now apply safe_eval | intros v].
    now apply safe_store.
  - apply safe_bind with (B1 := B); [now apply safe_eval | intros v].
    apply safe_ret.
Qed.

Lemma safe_exec_cell (src : list stmt) (B B' : list string) :
  scope B src = Some B' -> safe B B' (exec_cell rt src).
Proof.
  revert B. induction src as [ | s rest IH]; intros B Hs.
  - injection Hs as <-. apply safe_ret.
  - simpl in Hs.
    destruct (Analysis.plain s && forallb (known B) (reads s)) eqn:E;
      [ | discriminate Hs].
    apply andb_prop in E as [Hplain Hreads].
    assert (Hseq : safe B B' (bind (exec rt s) (fun _ => exec_cell rt rest))).
    { apply safe_bind with (B1 := binds s ++ B);
        [now apply safe_exec | intros _; now apply IH]. }
    destruct s; try exact Hseq.
    destruct rest; [ | exact Hseq].
    simpl in Hs. injection Hs as <-. simpl in Hreads. simpl.
    apply safe_bind with (B1 := B); [now apply safe_eval | intros v].
    apply safe_op. discriminate.
Qed.

Lemma safe_cells (cs : list code_cell) (B B' : list string) :
  scope B (flat_map source cs) = Some B' ->
  safe B B' (forM_ (exec_cell rt) (map source cs)).
Proof.
  revert B. induction cs as [ | c cs IH]; intros B Hs; simpl in *.
  - injection Hs as <-. apply safe_ret.
  - rewrite scope_app in Hs.
    destruct (scope B (source c)) as [B1 | ] eqn:E; [ | discriminate Hs].
    apply safe_bind with (B1 := B1);
      [now apply safe_exec_cell | intros _; now apply IH].
Qed.

(** A well-scoped notebook raises no [NameError]. *)
Lemma well_scoped_quiet (nb : notebook) (w : W) :
  well_scoped nb = true ->
  Forall (fun ev => ~ @name_error X ev) (fst (run rt nb w)).
Proof.
  unfold well_scoped, statements, run. intros H.
  destruct (scope [] (flat_map source (code_cells nb))) as [B' | ] eqn:E;
    [ | discriminate H].
  apply (safe_cells _ _ _ E). intros x [].
Qed.

End NameSafety.

(** X5: both notebooks read only names that an earlier statement, in the
    order of the cells, has bound, or the builtins [len], [bool] and
    [float].  On every runtime that has these builtins a run from the top
    raises no [NameError]; if it ends with an exception, the exception was
    raised by the last operation of the run, and that operation was not a
    name lookup. *)
Theorem notebooks_read_only_bound_names
    {V W X : Type} (rt : runtime V W X) (w : W) (nb : notebook) :
  In nb repository_notebooks ->
  (forall x, In x builtins -> rt_builtin rt x <> None) ->
  Forall (fun ev => ~ name_error ev) (fst (run rt nb w)) /\
  forall x s,
    snd (run rt nb w) = Err x s ->
    exists tr o,
      fst (run rt nb w) = tr ++ [Ev o (Some x)] /\ forall n, o <> OpName n.
Proof.
  intros Hnb Hb.
  assert (Hscoped : well_scoped nb = true).
  { destruct Hnb as [<- | [<- | []]]; reflexivity. }
  assert (Hplain : forallb Analysis.plain (statements nb) = true).
  { destruct Hnb as [<- | [<- | []]]; reflexivity. }
  pose proof (well_scoped_quiet rt Hb nb w Hscoped) as Hq.
  split; [exact Hq | ].
  intros x s Herr.
  pose proof (SemFacts.plain_notebook_faithful rt nb w Hplain) as Hf.
  destruct (run rt nb w) as [tr r]. simpl in *. subst r. simpl in Hf.
  destruct Hf as (tr0 & o & -> & _). exists tr0, o. split; [reflexivity | ].
  intros n ->. apply Forall_app in Hq as [_ Hlast].
  inversion Hlast as [ | ev l Hev _]; subst. apply Hev. exact I.
Qed.

(** X5, witness: the segment notebook on the toy runtime. *)
Lemma notebooks_read_only_bound_names_witness :
  In segment_notebook repository_notebooks /\
  (forall x, In x builtins -> rt_builtin (Toy.toy []) x <> None) /\
  Forall (fun ev => ~ name_error ev)
         (fst (run (Toy.toy []) segment_notebook 0)).
Proof.
  assert (Hin : In segment_notebook repository_notebooks).
  { right. left. reflexivity. }
  assert (Hb : forall x, In x builtins -> rt_builtin (Toy.toy []) x <> None).
  { intros x [<- | [<- | [<- | []]]]; discriminate. }
  split; [exact Hin | ]. split; [exact Hb | ].
  exact (proj1 (notebooks_read_only_bound_names
                  (Toy.toy []) 0 segment_notebook Hin Hb)).
Defined.

(** A cell that reads a name before any cell binds it does raise. *)
Example unbound_name_raises :
  well_scoped reads_unbound = false /\
  Toy.ending (run (Toy.toy []) reads_unbound 0)
  = Some "NameError: psi1_s"%string.
Proof. split; reflexivity. Qed.

End ScopeFacts.
